(** * Goblin: the shader program loader (src/gl/program.js) and the
      vector utility (src/math/vec3.js)

    A shallow embedding of the two JavaScript classes.  The WebGL context
    and the network are external: the context is a record of operations
    over an abstract driver state, the network an oracle that settles each
    [fetch] and fixes which of the two concurrent fetches settles first.
    Every call that leaves the class (debug log, fetch, context call) and
    every exception raised is appended to a chronological trace together
    with the value the outside returned. *)

From Stdlib Require Import String Ascii List ZArith Lia Bool Floats.SpecFloat.
Import ListNotations.
Local Open Scope string_scope.
Set Warnings "-register-all".

(** ** JavaScript strings *)

Module JsString.

(** The character U+0022, which the template literals of program.js
    print around the program name. *)
Definition dquote : string := String (ascii_of_nat 34) EmptyString.

(** [String.prototype.endsWith(searchString)] with the end position
    omitted: the last [searchLength] characters are compared. *)
Definition endsWith (s searchString : string) : bool :=
  let len := String.length s in
  let searchLength := String.length searchString in
  if (searchLength <=? len)%nat
  then String.eqb (substring (len - searchLength) searchLength s) searchString
  else false.

End JsString.

(** ** JavaScript [Map]: insertion-ordered, keys unique *)

Class EqDec (K : Type) := eq_dec : forall a b : K, {a = b} + {a <> b}.

#[export] Instance string_EqDec : EqDec string := string_dec.

Module JsMap.

Definition t (K V : Type) := list (K * V).

Definition empty {K V : Type} : t K V := [].

Fixpoint get {K V : Type} `{EqDec K} (k : K) (m : t K V) : option V :=
  match m with
  | [] => None
  | (k', v) :: rest => if eq_dec k k' then Some v else get k rest
  end.

(** [Map.prototype.set]: an existing key keeps its position and takes the
    new value, a new key is appended. *)
Fixpoint set {K V : Type} `{EqDec K} (k : K) (v : V) (m : t K V) : t K V :=
  match m with
  | [] => [(k, v)]
  | (k', v') :: rest =>
      if eq_dec k k' then (k, v) :: rest else (k', v') :: set k v rest
  end.

Definition keys {K V : Type} (m : t K V) : list K := map fst m.

(** [set] applied to a list of entries, first to last. *)
Definition set_all {K V : Type} `{EqDec K} (entries : list (K * V)) (m : t K V)
  : t K V :=
  fold_left (fun acc e => set (fst e) (snd e) acc) entries m.

End JsMap.

(** ** The WebGL side *)

(** The [WebGLRenderingContext] constants program.js names. *)
Inductive GLenum :=
| VERTEX_SHADER | FRAGMENT_SHADER
| COMPILE_STATUS | LINK_STATUS | VALIDATE_STATUS
| ACTIVE_UNIFORMS | ACTIVE_ATTRIBUTES.

#[export] Instance GLenum_EqDec : EqDec GLenum.
Proof. unfold EqDec. decide equality. Defined.

(** What [getShaderParameter] and [getProgramParameter] return ([any] in
    the IDL): a GLboolean for the status queries, a GLint for the active
    counts, [null] on error. *)
Inductive GLany := GLboolean (b : bool) | GLint (n : Z) | GLnull.

(** JavaScript [ToBoolean], as used by [!value]. *)
Definition truthy (v : GLany) : bool :=
  match v with
  | GLboolean b => b
  | GLint n => negb (n =? 0)%Z
  | GLnull => false
  end.

(** JavaScript [ToNumber], as used by [idx < num]. *)
Definition to_number (v : GLany) : Z :=
  match v with
  | GLboolean b => if b then 1%Z else 0%Z
  | GLint n => n
  | GLnull => 0%Z
  end.

Module WebGL.

Record WebGLActiveInfo := {
  name : string;
  size : Z;
  type : Z
}.

(** The context the program is associated with.  [GL] is the driver
    state; creating, uploading, compiling, attaching, linking and
    validating change it, the queries read it.  The context is taken
    live (not lost): creation returns a handle, and the active-info
    queries return an info object. *)
Record Context := {
  GL : Type;
  WebGLShader : Type;
  WebGLProgram : Type;
  Location : Type;
  createShader : GL -> GLenum -> WebGLShader * GL;
  shaderSource : GL -> WebGLShader -> string -> GL;
  compileShader : GL -> WebGLShader -> GL;
  getShaderParameter : GL -> WebGLShader -> GLenum -> GLany;
  getShaderInfoLog : GL -> WebGLShader -> string;
  createProgram : GL -> WebGLProgram * GL;
  attachShader : GL -> WebGLProgram -> WebGLShader -> GL;
  linkProgram : GL -> WebGLProgram -> GL;
  validateProgram : GL -> WebGLProgram -> GL;
  getProgramParameter : GL -> WebGLProgram -> GLenum -> GLany;
  getActiveUniform : GL -> WebGLProgram -> Z -> WebGLActiveInfo;
  getActiveAttrib : GL -> WebGLProgram -> Z -> WebGLActiveInfo;
  getUniformLocation : GL -> WebGLProgram -> string -> Location;
  getAttribLocation : GL -> WebGLProgram -> string -> Location;
  (** [`${location}`] *)
  location_toString : Location -> string
}.

(** [c[a_func]] for the two names [qualify] can build; any other
    property is [undefined]. *)
Definition getActive_method (c : Context) (a_func : string)
  : option (GL c -> WebGLProgram c -> Z -> WebGLActiveInfo) :=
  if String.eqb a_func "getActiveUniform" then Some (getActiveUniform c)
  else if String.eqb a_func "getActiveAttrib" then Some (getActiveAttrib c)
  else None.

(** [c[l_func]], likewise. *)
Definition getLocation_method (c : Context) (l_func : string)
  : option (GL c -> WebGLProgram c -> string -> Location c) :=
  if String.eqb l_func "getUniformLocation" then Some (getUniformLocation c)
  else if String.eqb l_func "getAttribLocation" then Some (getAttribLocation c)
  else None.

End WebGL.

(** ** Errors, promises, the network *)

Inductive JsError :=
| Error (message : string)
| TypeError (message : string)
| ReferenceError (message : string).

Inductive Outcome (A : Type) :=
| Ok (a : A)
| Throw (e : JsError).
Arguments Ok {A} a.
Arguments Throw {A} e.

(** The state of a promise once the event loop is idle. *)
Inductive PromiseState (A : Type) :=
| Pending
| Fulfilled (value : A)
| Rejected (reason : JsError).
Arguments Pending {A}.
Arguments Fulfilled {A} value.
Arguments Rejected {A} reason.

Module Net.

Record Response := {
  status : Z;
  (** what [response.text()] resolves with *)
  text : string
}.

(** How a [fetch] settles: rejected on a transport error, fulfilled with
    a response otherwise (whatever its HTTP status). *)
Inductive FetchResult :=
| NetworkError (cause : JsError)
| Responded (response : Response).

(** Which of the two shader chains of [ready] runs its callbacks first. *)
Inductive Order := VertexFirst | FragmentFirst.

Record Network := {
  fetch : string -> FetchResult;
  order : Order
}.

(** The stage whose chain runs first. *)
Definition first (o : Order) : GLenum :=
  match o with
  | VertexFirst => VERTEX_SHADER
  | FragmentFirst => FRAGMENT_SHADER
  end.

End Net.

(** [Promise.all] over [n] promises, fed with the settlements of its inputs
    in the order in which they happen. *)
Module PromiseAll.

Record state (A : Type) := {
  values : list (option A);
  remaining : nat;
  result : PromiseState (list A)
}.
Arguments values {A} s.
Arguments remaining {A} s.
Arguments result {A} s.

Fixpoint store {A : Type} (index : nat) (v : A) (l : list (option A))
  : list (option A) :=
  match l, index with
  | [], _ => []
  | _ :: rest, O => Some v :: rest
  | x :: rest, S i => x :: store i v rest
  end.

Fixpoint collect {A : Type} (l : list (option A)) : list A :=
  match l with
  | [] => []
  | Some v :: rest => v :: collect rest
  | None :: rest => collect rest
  end.

Definition init {A : Type} (n : nat) : state A :=
  {| values := repeat None n;
     remaining := n;
     result := match n with O => Fulfilled [] | S _ => Pending end |}.

Definition step {A : Type} (s : state A) (settlement : nat * PromiseState A)
  : state A :=
  match result s with
  | Pending =>
      match snd settlement with
      | Pending => s
      | Rejected e =>
          {| values := values s; remaining := remaining s;
             result := Rejected e |}
      | Fulfilled v =>
          let values' := store (fst settlement) v (values s) in
          let remaining' := pred (remaining s) in
          {| values := values'; remaining := remaining';
             result := match remaining' with
                       | O => Fulfilled (collect values')
                       | S _ => Pending
                       end |}
      end
  | _ => s
  end.

Definition all {A : Type} (n : nat) (settlements : list (nat * PromiseState A))
  : PromiseState (list A) :=
  result (fold_left step settlements (init n)).

End PromiseAll.

(** ** src/gl/program.js *)

Module Program.

Import JsString.

Section WithContext.

Variable c : WebGL.Context.

(** The JavaScript values a promise of this class can settle with. *)
Inductive Value :=
| VUndefined
| VShader (shader : WebGL.WebGLShader c)
| VProgram (program : WebGL.WebGLProgram c)
| VArray (elements : list Value).

(** One entry of the trace: a call that leaves the class, with what the
    outside returned, or an exception raised inside the class. *)
Inductive Event :=
| EvLog (message : string)
| EvFetch (file : string)
| EvFetchRejected (file : string) (cause : JsError)
| EvFetchResponse (file : string) (status : Z)
| EvCreateShader (type : GLenum) (ret : WebGL.WebGLShader c)
| EvShaderSource (shader : WebGL.WebGLShader c) (source : string)
| EvCompileShader (shader : WebGL.WebGLShader c)
| EvGetShaderParameter (shader : WebGL.WebGLShader c) (pname : GLenum) (ret : GLany)
| EvGetShaderInfoLog (shader : WebGL.WebGLShader c) (ret : string)
| EvCreateProgram (ret : WebGL.WebGLProgram c)
| EvAttachShader (program : WebGL.WebGLProgram c) (shader : WebGL.WebGLShader c)
| EvLinkProgram (program : WebGL.WebGLProgram c)
| EvValidateProgram (program : WebGL.WebGLProgram c)
| EvGetProgramParameter (program : WebGL.WebGLProgram c) (pname : GLenum) (ret : GLany)
| EvGetActive (method : string) (program : WebGL.WebGLProgram c) (index : Z)
    (ret : WebGL.WebGLActiveInfo)
| EvGetLocation (method : string) (program : WebGL.WebGLProgram c) (name : string)
    (ret : WebGL.Location c)
| EvThrow (e : JsError).

(** The fields of a [Program] object; [_context] is [c]. *)
Record Instance := {
  _name : string;
  _shaders : JsMap.t GLenum (WebGL.WebGLShader c);
  _program : option (WebGL.WebGLProgram c);
  _parameters : JsMap.t GLenum (JsMap.t string (WebGL.Location c));
  _path : string
}.

Definition set_shaders (i : Instance) (m : JsMap.t GLenum (WebGL.WebGLShader c))
  : Instance :=
  {| _name := _name i; _shaders := m; _program := _program i;
     _parameters := _parameters i; _path := _path i |}.

Definition set_program (i : Instance) (p : option (WebGL.WebGLProgram c))
  : Instance :=
  {| _name := _name i; _shaders := _shaders i; _program := p;
     _parameters := _parameters i; _path := _path i |}.

Definition set_parameters (i : Instance)
  (m : JsMap.t GLenum (JsMap.t string (WebGL.Location c))) : Instance :=
  {| _name := _name i; _shaders := _shaders i; _program := _program i;
     _parameters := m; _path := _path i |}.

(** The world a method runs in: driver state, trace so far, and [this]
    ([unit] while the constructor has not produced the object). *)
Record State (T : Type) := {
  gl : WebGL.GL c;
  trace : list Event;
  this : T
}.
Arguments gl {T} s.
Arguments trace {T} s.
Arguments this {T} s.

(** Synchronous code: it may raise, and what it did before raising stays. *)
Definition M (T A : Type) : Type := State T -> Outcome A * State T.

Definition ret {T A : Type} (a : A) : M T A := fun st => (Ok a, st).

Definition bind {T A B : Type} (m : M T A) (k : A -> M T B) : M T B :=
  fun st =>
    match m st with
    | (Ok a, st') => k a st'
    | (Throw e, st') => (Throw e, st')
    end.

Definition emit_ {T : Type} (ev : Event) (st : State T) : State T :=
  {| gl := gl st; trace := trace st ++ [ev]; this := this st |}.

Definition emit {T : Type} (ev : Event) : M T unit :=
  fun st => (Ok tt, emit_ ev st).

Definition throw {T A : Type} (e : JsError) : M T A :=
  fun st => (Throw e, emit_ (EvThrow e) st).

Definition read_this {T : Type} : M T T := fun st => (Ok (this st), st).

Definition write_this {T : Type} (f : T -> T) : M T unit :=
  fun st => (Ok tt, {| gl := gl st; trace := trace st; this := f (this st) |}).

Local Notation "x <- m ;; k" := (bind m (fun x => k))
  (at level 61, m at next level, right associativity).
Local Notation "m ;; k" := (bind m (fun _ => k))
  (at level 61, right associativity).

(** Modelled from the spec: [dl] is imported from log.js, which is not
    among the sources; the spec counts the logging helpers as plain
    helpers outside the pipeline, so a call only leaves its line in the
    trace. *)
Definition dl {T : Type} (message : string) : M T unit := emit (EvLog message).

(** A call that changes the driver state and returns nothing. *)
Definition gl_do {T : Type} (f : WebGL.GL c -> WebGL.GL c) (ev : Event) : M T unit :=
  fun st => (Ok tt, {| gl := f (gl st); trace := trace st ++ [ev]; this := this st |}).

(** A call that changes the driver state and returns a new handle. *)
Definition gl_new {T A : Type} (f : WebGL.GL c -> A * WebGL.GL c) (ev : A -> Event)
  : M T A :=
  fun st =>
    let (a, g) := f (gl st) in
    (Ok a, {| gl := g; trace := trace st ++ [ev a]; this := this st |}).

(** A query. *)
Definition gl_get {T A : Type} (f : WebGL.GL c -> A) (ev : A -> Event) : M T A :=
  fun st => let a := f (gl st) in (Ok a, emit_ (ev a) st).

(** [for(let idx = start ; idx < num ; idx++) body] for an integral bound:
    [count] is the number of iterations left. *)
Fixpoint for_ {T : Type} (count : nat) (idx : Z) (body : Z -> M T unit) : M T unit :=
  match count with
  | O => ret tt
  | S n => body idx ;; for_ n (idx + 1)%Z body
  end.

(** String concatenation applied to the result of [Map.prototype.get]. *)
Definition toString (o : option string) : string :=
  match o with
  | Some s => s
  | None => "undefined"
  end.

Definition DEFAULT_SHADER_PATH : string := "/shaders/".

Definition SHADER_EXTENSIONS : JsMap.t GLenum string :=
  JsMap.set FRAGMENT_SHADER ".frag" (JsMap.set VERTEX_SHADER ".vert" JsMap.empty).

Definition QUALIFYING_FUNCTION : JsMap.t GLenum string :=
  JsMap.set ACTIVE_ATTRIBUTES "Attrib" (JsMap.set ACTIVE_UNIFORMS "Uniform" JsMap.empty).

(** The argument object of the constructor; [None] is an absent property. *)
Record Args := {
  name : option string;
  path : option string
}.

Definition constructor (args : Args) : M unit Instance :=
  match name args with
  | None | Some EmptyString =>
      throw (Error "Name required in order to create a program.")
  | Some name =>
      let path := match path args with
                  | None => DEFAULT_SHADER_PATH
                  | Some p => p
                  end in
      let path := if negb (endsWith path "/") then path ++ "/" else path in
      ret {| _name := name;
             _shaders := JsMap.empty;
             _program := None;
             _parameters :=
               JsMap.set ACTIVE_ATTRIBUTES JsMap.empty
                 (JsMap.set ACTIVE_UNIFORMS JsMap.empty JsMap.empty);
             _path := path ++ name ++ "/" |}
  end.

(** [this._program] handed to a context call: the context refuses
    [undefined] where a WebGLProgram is required. *)
Definition the_program : M Instance (WebGL.WebGLProgram c) :=
  i <- read_this ;;
  match _program i with
  | Some p => ret p
  | None => throw (TypeError "parameter 1 is not of type 'WebGLProgram'.")
  end.

(** [createShader(type)] up to the point where it returns its promise: the
    file name is built, logged and requested.  The promise is identified
    by the file it waits for. *)
Definition createShader (type : GLenum) (st : State Instance)
  : string * State Instance :=
  let file := _path (this st) ++ _name (this st)
              ++ toString (JsMap.get type SHADER_EXTENSIONS) in
  (file, emit_ (EvFetch file) (emit_ (EvLog ("Loading : " ++ file)) st)).

(** The last [then] callback of [createShader]: [(body) => { ... }]. *)
Definition createShader_body (type : GLenum) (body : string)
  : M Instance (WebGL.WebGLShader c) :=
  i <- read_this ;;
  dl ("Creating "
      ++ (if eq_dec type VERTEX_SHADER then "vertex" else "fragment")
      ++ " shader for program " ++ dquote ++ _name i ++ dquote ++ ".") ;;
  shader <- gl_new (fun g => WebGL.createShader c g type) (EvCreateShader type) ;;
  gl_do (fun g => WebGL.shaderSource c g shader body) (EvShaderSource shader body) ;;
  gl_do (fun g => WebGL.compileShader c g shader) (EvCompileShader shader) ;;
  status <- gl_get (fun g => WebGL.getShaderParameter c g shader COMPILE_STATUS)
              (EvGetShaderParameter shader COMPILE_STATUS) ;;
  if negb (truthy status) then
    log <- gl_get (fun g => WebGL.getShaderInfoLog c g shader)
             (EvGetShaderInfoLog shader) ;;
    throw (Error ("Error compiling shader: " ++ log))
  else
    write_this (fun i => set_shaders i (JsMap.set type shader (_shaders i))) ;;
    ret shader.

(** The promise chain [fetch(file).then(response => response.text())
    .then(body => ...)] run to its settlement. *)
Definition createShader_settle (net : Net.Network) (type : GLenum) (file : string)
  (st : State Instance) : PromiseState (WebGL.WebGLShader c) * State Instance :=
  match Net.fetch net file with
  | Net.NetworkError cause => (Rejected cause, emit_ (EvFetchRejected file cause) st)
  | Net.Responded response =>
      match createShader_body type (Net.text response)
              (emit_ (EvFetchResponse file (Net.status response)) st) with
      | (Ok shader, st') => (Fulfilled shader, st')
      | (Throw e, st') => (Rejected e, st')
      end
  end.

Definition compileProgram (shaders : list (WebGL.WebGLShader c)) : M Instance unit :=
  i <- read_this ;;
  dl ("Compiling program " ++ _name i ++ ".") ;;
  program <- gl_new (WebGL.createProgram c) EvCreateProgram ;;
  write_this (fun i => set_program i (Some program)) ;;
  fold_right
    (fun shader rest =>
       p <- the_program ;;
       gl_do (fun g => WebGL.attachShader c g p shader) (EvAttachShader p shader) ;;
       rest)
    (ret tt) shaders ;;
  p <- the_program ;;
  gl_do (fun g => WebGL.linkProgram c g p) (EvLinkProgram p) ;;
  p <- the_program ;;
  linked <- gl_get (fun g => WebGL.getProgramParameter c g p LINK_STATUS)
              (EvGetProgramParameter p LINK_STATUS) ;;
  if negb (truthy linked) then
    throw (Error ("Unable to ling program " ++ dquote ++ _name i ++ dquote))
  else
    p <- the_program ;;
    gl_do (fun g => WebGL.validateProgram c g p) (EvValidateProgram p) ;;
    p <- the_program ;;
    valid <- gl_get (fun g => WebGL.getProgramParameter c g p VALIDATE_STATUS)
               (EvGetProgramParameter p VALIDATE_STATUS) ;;
    if negb (truthy valid) then
      throw (Error ("Unable to validate program " ++ dquote ++ _name i ++ dquote))
    else ret tt.

(** One turn of the loop of [qualify]. *)
Definition qualify_step (parameter : GLenum) (p_func a_func l_func : string)
  (idx : Z) : M Instance unit :=
  p <- the_program ;;
  info <- match WebGL.getActive_method c a_func with
          | Some f => gl_get (fun g => f g p idx) (EvGetActive a_func p idx)
          | None => throw (TypeError ("c[a_func] is not a function"))
          end ;;
  p <- the_program ;;
  location <- match WebGL.getLocation_method c l_func with
              | Some f => gl_get (fun g => f g p (WebGL.name info))
                            (EvGetLocation l_func p (WebGL.name info))
              | None => throw (TypeError ("c[l_func] is not a function"))
              end ;;
  i <- read_this ;;
  match JsMap.get parameter (_parameters i) with
  | Some inner =>
      write_this (fun i =>
        set_parameters i
          (JsMap.set parameter (JsMap.set (WebGL.name info) location inner)
             (_parameters i)))
  | None => throw (TypeError "Cannot read properties of undefined (reading 'set')")
  end ;;
  dl ("Found " ++ p_func ++ " : " ++ WebGL.name info ++ " with index "
      ++ WebGL.location_toString c location).

Definition qualify (parameter : GLenum) : M Instance Value :=
  dl ("Initializing shader "
      ++ (if eq_dec parameter ACTIVE_ATTRIBUTES then "attributes" else "uniforms")
      ++ ".") ;;
  p <- the_program ;;
  num <- gl_get (fun g => WebGL.getProgramParameter c g p parameter)
           (EvGetProgramParameter p parameter) ;;
  let p_func := toString (JsMap.get parameter QUALIFYING_FUNCTION) in
  let a_func := "getActive" ++ p_func in
  let l_func := "get" ++ p_func ++ "Location" in
  for_ (Z.to_nat (to_number num)) 0%Z (qualify_step parameter p_func a_func l_func) ;;
  ret VUndefined.

(** [qualifyAll] runs both passes and returns [Promise.all] of their two
    (non-promise) results. *)
Definition qualifyAll : M Instance (PromiseState (list Value)) :=
  uniforms <- qualify ACTIVE_UNIFORMS ;;
  attributes <- qualify ACTIVE_ATTRIBUTES ;;
  ret (PromiseAll.all 2 [(0%nat, Fulfilled uniforms); (1%nat, Fulfilled attributes)]).

(** [promise.then(f)] for a callback returning a plain value. *)
Definition then_ {A B : Type} (p : PromiseState A) (f : A -> M Instance B)
  (st : State Instance) : PromiseState B * State Instance :=
  match p with
  | Pending => (Pending, st)
  | Rejected e => (Rejected e, st)
  | Fulfilled a =>
      match f a st with
      | (Ok b, st') => (Fulfilled b, st')
      | (Throw e, st') => (Rejected e, st')
      end
  end.

(** [promise.then(f)] for a callback returning a promise, which the result
    follows. *)
Definition then_promise {A B : Type} (p : PromiseState A)
  (f : A -> M Instance (PromiseState B)) (st : State Instance)
  : PromiseState B * State Instance :=
  match then_ p f st with
  | (Fulfilled q, st') => (q, st')
  | (Rejected e, st') => (Rejected e, st')
  | (Pending, st') => (Pending, st')
  end.

(** The two shader chains run to settlement in the order the network
    fixes; each settlement is reported to [Promise.all] with the index of
    its promise in the array [shaders]. *)
Definition settle_shaders (net : Net.Network) (fileV fileF : string)
  (st : State Instance)
  : list (nat * PromiseState (WebGL.WebGLShader c)) * State Instance :=
  match Net.order net with
  | Net.VertexFirst =>
      let (v, st1) := createShader_settle net VERTEX_SHADER fileV st in
      let (f, st2) := createShader_settle net FRAGMENT_SHADER fileF st1 in
      ([(0%nat, v); (1%nat, f)], st2)
  | Net.FragmentFirst =>
      let (f, st1) := createShader_settle net FRAGMENT_SHADER fileF st in
      let (v, st2) := createShader_settle net VERTEX_SHADER fileV st1 in
      ([(1%nat, f); (0%nat, v)], st2)
  end.

(** [ready()] followed until the event loop is idle: the state its promise
    is left in, and the world at that point. *)
Definition ready (net : Net.Network) (st : State Instance)
  : PromiseState Value * State Instance :=
  let (fileV, st1) := createShader VERTEX_SHADER st in
  let (fileF, st2) := createShader FRAGMENT_SHADER st1 in
  let (settlements, st3) := settle_shaders net fileV fileF st2 in
  let shaders := PromiseAll.all 2 settlements in
  let (compiled, st4) := then_ shaders compileProgram st3 in
  let (qualified, st5) := then_promise compiled (fun _ => qualifyAll) st4 in
  (match qualified with
   | Pending => Pending
   | Fulfilled values => Fulfilled (VArray values)
   | Rejected e => Rejected e
   end, st5).

(** *** What a trace and a context show *)

(** The error an entry of the trace stands for: an exception raised in
    the class, or the reason a [fetch] was rejected with. *)
Definition raised (ev : Event) : option JsError :=
  match ev with
  | EvThrow e => Some e
  | EvFetchRejected _ cause => Some cause
  | _ => None
  end.

(** The first error of a trace, in the order of time. *)
Fixpoint first_error (tr : list Event) : option JsError :=
  match tr with
  | [] => None
  | ev :: rest =>
      match raised ev with
      | Some e => Some e
      | None => first_error rest
      end
  end.

(** Entries made by the introspection stage: an active-count query, an
    active-info query or a location query. *)
Definition introspects (ev : Event) : bool :=
  match ev with
  | EvGetProgramParameter _ ACTIVE_UNIFORMS _ => true
  | EvGetProgramParameter _ ACTIVE_ATTRIBUTES _ => true
  | EvGetActive _ _ _ _ => true
  | EvGetLocation _ _ _ _ => true
  | _ => false
  end.

Definition validates (ev : Event) : bool :=
  match ev with
  | EvValidateProgram _ => true
  | _ => false
  end.

Definition links (ev : Event) : bool :=
  match ev with
  | EvCreateProgram _ => true
  | EvAttachShader _ _ => true
  | EvLinkProgram _ => true
  | _ => false
  end.

(** A status query (compile, link or validate) that was answered with a
    falsy value. *)
Definition reports_failure (ev : Event) : bool :=
  match ev with
  | EvGetShaderParameter _ COMPILE_STATUS v => negb (truthy v)
  | EvGetProgramParameter _ LINK_STATUS v => negb (truthy v)
  | EvGetProgramParameter _ VALIDATE_STATUS v => negb (truthy v)
  | _ => false
  end.

(** Entries the introspection stage makes when nothing goes wrong: debug
    lines and introspection queries. *)
Definition quiet (ev : Event) : bool :=
  match ev with
  | EvLog _ => true
  | _ => introspects ev
  end.

(** The entries that follow the creation of the shader of a stage. *)
Fixpoint after_create (type : GLenum) (tr : list Event) : list Event :=
  match tr with
  | [] => []
  | EvCreateShader t _ :: rest =>
      if eq_dec t type then rest else after_create type rest
  | _ :: rest => after_create type rest
  end.

(** The compile-status answer at the head of the calls made on a shader
    just created: upload, compile, status query. *)
Fixpoint status_answer (tr : list Event) : option GLany :=
  match tr with
  | EvShaderSource _ _ :: rest => status_answer rest
  | EvCompileShader _ :: rest => status_answer rest
  | EvGetShaderParameter _ COMPILE_STATUS v :: _ => Some v
  | _ => None
  end.

(** The info log asked for right after that answer, if it was. *)
Fixpoint log_answer (tr : list Event) : option string :=
  match tr with
  | EvShaderSource _ _ :: rest => log_answer rest
  | EvCompileShader _ :: rest => log_answer rest
  | EvGetShaderParameter _ COMPILE_STATUS _ :: EvGetShaderInfoLog _ log :: _ =>
      Some log
  | _ => None
  end.

(** What the context answered to the compile-status query of a stage, and
    the info log it gave for the shader of that stage. *)
Definition compile_status_of (type : GLenum) (tr : list Event) : option GLany :=
  status_answer (after_create type tr).

Definition compile_log_of (type : GLenum) (tr : list Event) : option string :=
  log_answer (after_create type tr).

(** Everything of [i] but the parameter maps is as in [i0]. *)
Definition same_but_parameters (i0 i : Instance) : Prop :=
  _name i = _name i0 /\ _shaders i = _shaders i0 /\ _program i = _program i0
  /\ _path i = _path i0.

(** The object lacks what a turn of the loop of [qualify] needs: a
    program, one of the two context methods, or the map of the class. *)
Definition unfit (parameter : GLenum) (af lf : string) (st : State Instance) : Prop :=
  _program (this st) = None
  \/ WebGL.getActive_method c af = None
  \/ WebGL.getLocation_method c lf = None
  \/ JsMap.get parameter (_parameters (this st)) = None.

(** Entries that attach a shader to a program. *)
Definition attaches (ev : Event) : bool :=
  match ev with
  | EvAttachShader _ _ => true
  | _ => false
  end.

(** Entries that issue a request to the network. *)
Definition requests (ev : Event) : bool :=
  match ev with
  | EvFetch _ => true
  | _ => false
  end.

(** The entries [evs] stand in the trace [l] one after the other, with
    nothing between them. *)
Definition consecutive (evs l : list Event) : Prop :=
  exists pre post, l = (pre ++ evs ++ post)%list.

(** The indices [start], [start + 1], ... of [count] loop turns. *)
Fixpoint indices (count : nat) (start : Z) : list Z :=
  match count with
  | O => []
  | S n => start :: indices n (start + 1)%Z
  end.

(** What the context reports as active on [program]: for each index from
    0 to count - 1 the declared name and the location of that name. *)
Definition reported
  (getActive : WebGL.GL c -> WebGL.WebGLProgram c -> Z -> WebGL.WebGLActiveInfo)
  (getLocation : WebGL.GL c -> WebGL.WebGLProgram c -> string -> WebGL.Location c)
  (parameter : GLenum) (g : WebGL.GL c) (program : WebGL.WebGLProgram c)
  : list (string * WebGL.Location c) :=
  map (fun idx =>
         let n := WebGL.name (getActive g program idx) in
         (n, getLocation g program n))
      (indices (Z.to_nat (to_number (WebGL.getProgramParameter c g program parameter)))
         0%Z).

Definition active_uniforms :=
  reported (WebGL.getActiveUniform c) (WebGL.getUniformLocation c) ACTIVE_UNIFORMS.

Definition active_attributes :=
  reported (WebGL.getActiveAttrib c) (WebGL.getAttribLocation c) ACTIVE_ATTRIBUTES.

(** The states of the world between the callbacks of one [ready()]: at
    the call, after each [createShader] has issued its request, after the
    chain that settles first, after both chains, after the [compileProgram]
    callback and after the [qualifyAll] callback (a callback that is skipped
    leaves the state as it was). *)
Definition ready_history (net : Net.Network) (st : State Instance)
  : list (State Instance) :=
  let (fileV, st1) := createShader VERTEX_SHADER st in
  let (fileF, st2) := createShader FRAGMENT_SHADER st1 in
  let mid := match Net.order net with
             | Net.VertexFirst => snd (createShader_settle net VERTEX_SHADER fileV st2)
             | Net.FragmentFirst => snd (createShader_settle net FRAGMENT_SHADER fileF st2)
             end in
  let (settlements, st3) := settle_shaders net fileV fileF st2 in
  let shaders := PromiseAll.all 2 settlements in
  let (compiled, st4) := then_ shaders compileProgram st3 in
  let (qualified, st5) := then_promise compiled (fun _ => qualifyAll) st4 in
  [st; st1; st2; mid; st3; st4; st5].

End WithContext.

Arguments VUndefined {c}.
Arguments VShader {c} shader.
Arguments VProgram {c} program.
Arguments VArray {c} elements.
Arguments EvLog {c} message.
Arguments EvFetch {c} file.
Arguments EvFetchRejected {c} file cause.
Arguments EvFetchResponse {c} file status.
Arguments EvCreateShader {c} type ret.
Arguments EvShaderSource {c} shader source.
Arguments EvCompileShader {c} shader.
Arguments EvGetShaderParameter {c} shader pname ret.
Arguments EvGetShaderInfoLog {c} shader ret.
Arguments EvCreateProgram {c} ret.
Arguments EvAttachShader {c} program shader.
Arguments EvLinkProgram {c} program.
Arguments EvValidateProgram {c} program.
Arguments EvGetProgramParameter {c} program pname ret.
Arguments EvGetActive {c} method program index ret.
Arguments EvGetLocation {c} method program name ret.
Arguments EvThrow {c} e.
Arguments _name {c} i.
Arguments _shaders {c} i.
Arguments _program {c} i.
Arguments _parameters {c} i.
Arguments _path {c} i.
Arguments set_shaders {c} i m.
Arguments set_program {c} i p.
Arguments set_parameters {c} i m.
Arguments gl {c T} s.
Arguments trace {c T} s.
Arguments this {c T} s.
Arguments Build_State {c T} gl trace this.
Arguments ret {c T A} a st.
Arguments bind {c T A B} m k st.
Arguments emit_ {c T} ev st.
Arguments emit {c T} ev st.
Arguments throw {c T A} e st.
Arguments read_this {c T} st.
Arguments write_this {c T} f st.
Arguments dl {c T} message st.
Arguments gl_do {c T} f ev st.
Arguments gl_new {c T A} f ev st.
Arguments gl_get {c T A} f ev st.
Arguments for_ {c T} count idx body st.
Arguments the_program {c} st.
Arguments createShader {c} type st.
Arguments createShader_body {c} type body st.
Arguments createShader_settle {c} net type file st.
Arguments compileProgram {c} shaders st.
Arguments qualify_step {c} parameter p_func a_func l_func idx st.
Arguments qualify {c} parameter st.
Arguments qualifyAll {c} st.
Arguments then_ {c A B} p f st.
Arguments then_promise {c A B} p f st.
Arguments settle_shaders {c} net fileV fileF st.
Arguments ready {c} net st.
Arguments raised {c} ev.
Arguments first_error {c} tr.
Arguments introspects {c} ev.
Arguments validates {c} ev.
Arguments links {c} ev.
Arguments reports_failure {c} ev.
Arguments quiet {c} ev.
Arguments same_but_parameters {c} i0 i.
Arguments unfit {c} parameter af lf st.
Arguments attaches {c} ev.
Arguments requests {c} ev.
Arguments consecutive {c} evs l.
Arguments after_create {c} type tr.
Arguments status_answer {c} tr.
Arguments log_answer {c} tr.
Arguments compile_status_of {c} type tr.
Arguments compile_log_of {c} type tr.
Arguments reported {c} getActive getLocation parameter g program.
Arguments active_uniforms {c} g program.
Arguments active_attributes {c} g program.
Arguments ready_history {c} net st.

End Program.

(** ** src/math/vec3.js *)

Module Vec3.

Section Numbers.

(** The values a [Float32Array] holds.  [copy] and [clone] only move them,
    so they stay abstract. *)
Variable number : Type.

(** A [Vec3] object: [_v] is a [Float32Array(3)], always three elements. *)
Record t := {
  _v0 : number;
  _v1 : number;
  _v2 : number
}.

(** vec3.js is a module in strict mode and declares one name, [Vec3].  Any
    other free identifier of a method body is looked up on the global
    object when the statement runs; [Globals] gives the [Vec3] objects a
    page may have bound there. *)
Definition Globals := string -> option t.

(** A page that binds nothing. *)
Definition no_globals : Globals := fun _ => None.

(** [copy(v3)]: the body reads the free identifier [v], not the parameter
    [v3].  The result pairs what the call returns with [this] afterwards. *)
Definition copy (globals : Globals) (this v3 : t) : Outcome t * t :=
  match globals "v" with
  | None => (Throw (ReferenceError "v is not defined"), this)
  | Some v =>
      let this' := {| _v0 := _v0 v; _v1 := _v1 v; _v2 := _v2 v |} in
      (Ok this', this')
  end.

(** [clone()]: the body applies [new] to the free identifier [v3]; a
    [Vec3] object bound to that name is not a constructor. *)
Definition clone (globals : Globals) (this : t) : Outcome t * t :=
  match globals "v3" with
  | None => (Throw (ReferenceError "v3 is not defined"), this)
  | Some _ => (Throw (TypeError "v3 is not a constructor"), this)
  end.

End Numbers.

Arguments _v0 {number} t.
Arguments _v1 {number} t.
Arguments _v2 {number} t.
Arguments Build_t {number} _v0 _v1 _v2.
Arguments no_globals {number} _.
Arguments copy {number} globals this v3.
Arguments clone {number} globals this.

End Vec3.

(** ** A small driver and a small network

    Concrete collaborators on which the model runs: a driver that numbers
    its handles, compiles only a source text that starts with [void main]
    and reports the
    uniforms and attributes of shaders/basic/basic.vert. *)

Module Toy.

Record Driver := {
  next : Z;
  sources : list (Z * string)
}.

Fixpoint source_of (shader : Z) (l : list (Z * string)) : string :=
  match l with
  | [] => EmptyString
  | (s, text) :: rest => if (s =? shader)%Z then text else source_of shader rest
  end.

Definition compiles (g : Driver) (shader : Z) : bool :=
  String.prefix "void main" (source_of shader (sources g)).

Definition uniform_names : list string := ["model"; "view_projection"].

Definition attribute_names : list string := ["position"; "color"].

Fixpoint index_of (n : string) (l : list string) (i : Z) : Z :=
  match l with
  | [] => (-1)%Z
  | x :: rest => if String.eqb x n then i else index_of n rest (i + 1)%Z
  end.

Definition info (names : list string) (idx : Z) : WebGL.WebGLActiveInfo :=
  {| WebGL.name := nth (Z.to_nat idx) names EmptyString;
     WebGL.size := 1;
     WebGL.type := 0 |}.

(** The driver; [link_ok] and [validate_ok] are what it answers to the
    link-status and the validate-status query. *)
Definition context (link_ok validate_ok : bool) : WebGL.Context :=
  {| WebGL.GL := Driver;
     WebGL.WebGLShader := Z;
     WebGL.WebGLProgram := Z;
     WebGL.Location := Z;
     WebGL.createShader := fun g _ =>
       (next g, {| next := next g + 1; sources := sources g |});
     WebGL.shaderSource := fun g shader text =>
       {| next := next g; sources := (shader, text) :: sources g |};
     WebGL.compileShader := fun g _ => g;
     WebGL.getShaderParameter := fun g shader _ => GLboolean (compiles g shader);
     WebGL.getShaderInfoLog := fun g shader =>
       if compiles g shader then EmptyString
       else "ERROR: 0:1: " ++ source_of shader (sources g);
     WebGL.createProgram := fun g =>
       (next g, {| next := next g + 1; sources := sources g |});
     WebGL.attachShader := fun g _ _ => g;
     WebGL.linkProgram := fun g _ => g;
     WebGL.validateProgram := fun g _ => g;
     WebGL.getProgramParameter := fun _ _ pname =>
       match pname with
       | LINK_STATUS => GLboolean link_ok
       | VALIDATE_STATUS => GLboolean validate_ok
       | ACTIVE_UNIFORMS => GLint (Z.of_nat (List.length uniform_names))
       | ACTIVE_ATTRIBUTES => GLint (Z.of_nat (List.length attribute_names))
       | _ => GLnull
       end;
     WebGL.getActiveUniform := fun _ _ idx => info uniform_names idx;
     WebGL.getActiveAttrib := fun _ _ idx => info attribute_names idx;
     WebGL.getUniformLocation := fun _ _ n => index_of n uniform_names 0;
     WebGL.getAttribLocation := fun _ _ n => index_of n attribute_names 0;
     WebGL.location_toString := fun _ => "location" |}.

Definition driver0 : Driver := {| next := 1; sources := [] |}.

(** A network that settles the two files of the program [basic] under
    [/shaders/] as given and knows no other file. *)
Definition network (vert frag : Net.FetchResult) (order : Net.Order) : Net.Network :=
  {| Net.fetch := fun file =>
       if String.eqb file "/shaders/basic/basic.vert" then vert
       else if String.eqb file "/shaders/basic/basic.frag" then frag
       else Net.NetworkError (TypeError "Failed to fetch");
     Net.order := order |}.

Definition ok (text : string) : Net.FetchResult :=
  Net.Responded {| Net.status := 200; Net.text := text |}.

Definition not_found : Net.FetchResult :=
  Net.Responded {| Net.status := 404; Net.text := "Not Found" |}.

(** A not-found answer whose body is a fallback document the driver
    happens to compile. *)
Definition not_found_fallback : Net.FetchResult :=
  Net.Responded {| Net.status := 404; Net.text := "void main(void) {}" |}.

Definition failed : Net.FetchResult :=
  Net.NetworkError (TypeError "Failed to fetch").

Definition main_source : string := "void main(void) {}".

(** Both sources arrive and compile. *)
Definition good_net : Net.Network :=
  network (ok main_source) (ok main_source) Net.VertexFirst.

(** Both sources arrive, neither compiles, the fragment chain is first. *)
Definition both_bad_net : Net.Network :=
  network (ok "#error vertex") (ok "#error fragment") Net.FragmentFirst.

(** The vertex source is answered with status 404. *)
Definition not_found_net : Net.Network :=
  network not_found (ok main_source) Net.VertexFirst.

Definition not_found_fallback_net : Net.Network :=
  network not_found_fallback (ok main_source) Net.VertexFirst.

(** The fetch of the vertex source is rejected. *)
Definition failed_net : Net.Network :=
  network failed (ok main_source) Net.VertexFirst.

Definition basic_args : Program.Args :=
  {| Program.name := Some "basic"; Program.path := Some "/shaders" |}.

(** The object [new Program({context, name: 'basic', path: '/shaders'})]
    yields. *)
Definition basic (c : WebGL.Context) : Program.Instance c :=
  {| Program._name := "basic";
     Program._shaders := JsMap.empty;
     Program._program := None;
     Program._parameters := [(ACTIVE_UNIFORMS, []); (ACTIVE_ATTRIBUTES, [])];
     Program._path := "/shaders/basic/" |}.

(** The world in which [ready()] is called on that object. *)
Abbreviation start link_ok validate_ok :=
  (Program.Build_State (c := context link_ok validate_ok)
     (driver0 : WebGL.GL (context link_ok validate_ok)) []
     (basic (context link_ok validate_ok))).

End Toy.

(** ** JavaScript numbers and [Float32Array] elements *)

Module JsNumber.

(** A Number is an IEEE 754 binary64 value; an element of a
    [Float32Array] is a binary32 value.  Both are [spec_float]s, of the
    precision and exponent range of their format. *)
Definition number : Type := spec_float.

(** The value [x] in the format of precision [prec] and exponent bound
    [emax], rounded to nearest, ties to even. *)
Definition convert (prec emax : Z) (x : spec_float) : spec_float :=
  match x with
  | S754_finite s m e => binary_round prec emax s m e
  | _ => x
  end.

(** Storing a Number into a [Float32Array] (as [Math.fround]). *)
Definition fround : number -> spec_float := convert 24 128.

(** Reading an element of a [Float32Array] as a Number. *)
Definition widen : spec_float -> number := convert 53 1024.

(** The elements a [Float32Array] can hold. *)
Definition float32 (x : spec_float) : Prop := valid_binary 24 128 x = true.

Definition neg (x : number) : number := SFopp x.
Definition mul (x y : number) : number := SFmul 53 1024 x y.
Definition sub (x y : number) : number := SFsub 53 1024 x y.
Definition div (x y : number) : number := SFdiv 53 1024 x y.

(** The literals [0.0] and [1], and [NaN]. *)
Definition zero : number := S754_zero false.
Definition one : number := SFone 53 1024.
Definition nan : number := S754_nan.

(** The Number of an integer literal. *)
Definition of_Z (z : Z) : number := binary_normalize 53 1024 z 0 false.

(** [ToBoolean] of a Number: zero of either sign and NaN are falsy. *)
Definition to_boolean (x : number) : bool :=
  match x with
  | S754_zero _ => false
  | S754_nan => false
  | _ => true
  end.

(** [ToNumber] of an argument that may be absent. *)
Definition number_of (x : option number) : number :=
  match x with
  | Some n => n
  | None => nan
  end.

End JsNumber.

(** ** src/math/vec3.js: the constructor and the arithmetic methods

    Vectors are objects: a method changes its receiver in place and may be
    handed the receiver itself as argument.  The heap holds the vectors, a
    reference is a position in it. *)

Module Vec3Methods.

Import JsNumber.

Definition vec : Type := Vec3.t spec_float.

Definition Heap : Type := list vec.

Definition ref : Type := nat.

Definition set0 (n : spec_float) (v : vec) : vec :=
  Vec3.Build_t n (Vec3._v1 v) (Vec3._v2 v).

Definition set1 (n : spec_float) (v : vec) : vec :=
  Vec3.Build_t (Vec3._v0 v) n (Vec3._v2 v).

Definition set2 (n : spec_float) (v : vec) : vec :=
  Vec3.Build_t (Vec3._v0 v) (Vec3._v1 v) n.

Fixpoint update (r : ref) (f : vec -> vec) (h : Heap) : Heap :=
  match h, r with
  | [], _ => []
  | v :: rest, O => f v :: rest
  | v :: rest, S r' => v :: update r' f rest
  end.

Definition HM (A : Type) : Type := Heap -> Outcome A * Heap.

Definition pure {A : Type} (a : A) : HM A := fun h => (Ok a, h).

Definition and_then {A B : Type} (m : HM A) (k : A -> HM B) : HM B :=
  fun h =>
    match m h with
    | (Ok a, h') => k a h'
    | (Throw e, h') => (Throw e, h')
    end.

Local Notation "x <- m ;; k" := (and_then m (fun x => k))
  (at level 61, m at next level, right associativity).
Local Notation "m ;; k" := (and_then m (fun _ => k))
  (at level 61, right associativity).

(** [o._v[i]] read as a Number; [o] may be [undefined] (an absent
    argument) or no vector at all. *)
Definition read (o : option ref) (field : vec -> spec_float) : HM number :=
  fun h =>
    match o with
    | Some r =>
        match nth_error h r with
        | Some v => (Ok (widen (field v)), h)
        | None =>
            (Throw (TypeError "Cannot read properties of undefined (reading '0')"), h)
        end
    | None =>
        (Throw (TypeError "Cannot read properties of undefined (reading '_v')"), h)
    end.

(** [this._v[i] = n]. *)
Definition write (this : ref) (setter : spec_float -> vec -> vec) (n : number)
  : HM unit :=
  fun h => (Ok tt, update this (setter (fround n)) h).

(** [x || 0.0] for an argument that is a Number or absent. *)
Definition or_zero (x : option number) : number :=
  match x with
  | Some n => if to_boolean n then n else zero
  | None => zero
  end.

(** The object [new Vec3(x, y, z)] builds. *)
Definition constructor (x y z : option number) : vec :=
  Vec3.Build_t (fround (or_zero x)) (fround (or_zero y)) (fround (or_zero z)).

(** [new Vec3(x, y, z)]: the object is put on the heap. *)
Definition new (x y z : option number) : HM ref :=
  fun h => (Ok (List.length h), (h ++ [constructor x y z])%list).

Definition negate (this : ref) : HM ref :=
  x <- read (Some this) Vec3._v0 ;; write this set0 (neg x) ;;
  y <- read (Some this) Vec3._v1 ;; write this set1 (neg y) ;;
  z <- read (Some this) Vec3._v2 ;; write this set2 (neg z) ;;
  pure this.

Definition inverse (this : ref) : HM ref :=
  x <- read (Some this) Vec3._v0 ;; write this set0 (div one x) ;;
  y <- read (Some this) Vec3._v1 ;; write this set1 (div one y) ;;
  z <- read (Some this) Vec3._v2 ;; write this set2 (div one z) ;;
  pure this.

Definition scale (this : ref) (n : option number) : HM ref :=
  x <- read (Some this) Vec3._v0 ;; write this set0 (mul x (number_of n)) ;;
  y <- read (Some this) Vec3._v1 ;; write this set1 (mul y (number_of n)) ;;
  z <- read (Some this) Vec3._v2 ;; write this set2 (mul z (number_of n)) ;;
  pure this.

Definition multiply (this : ref) (v3 : option ref) : HM ref :=
  x <- read (Some this) Vec3._v0 ;; a <- read v3 Vec3._v0 ;;
  write this set0 (mul x a) ;;
  y <- read (Some this) Vec3._v1 ;; b <- read v3 Vec3._v1 ;;
  write this set1 (mul y b) ;;
  z <- read (Some this) Vec3._v2 ;; d <- read v3 Vec3._v2 ;;
  write this set2 (mul z d) ;;
  pure this.

Definition cross (this : ref) (v3 : option ref) : HM ref :=
  x <- read (Some this) Vec3._v0 ;;
  y <- read (Some this) Vec3._v1 ;;
  z <- read (Some this) Vec3._v2 ;;
  a2 <- read v3 Vec3._v2 ;; a1 <- read v3 Vec3._v1 ;;
  write this set0 (sub (mul y a2) (mul z a1)) ;;
  b0 <- read v3 Vec3._v0 ;; b2 <- read v3 Vec3._v2 ;;
  write this set1 (sub (mul z b0) (mul x b2)) ;;
  d1 <- read v3 Vec3._v1 ;; d0 <- read v3 Vec3._v0 ;;
  write this set2 (sub (mul x d1) (mul y d0)) ;;
  pure this.

(** The cross product of the values two vectors hold, each component
    computed on Numbers and stored as a [Float32Array] element. *)
Definition cross_product (u w : vec) : vec :=
  let x := widen (Vec3._v0 u) in
  let y := widen (Vec3._v1 u) in
  let z := widen (Vec3._v2 u) in
  Vec3.Build_t
    (fround (sub (mul y (widen (Vec3._v2 w))) (mul z (widen (Vec3._v1 w)))))
    (fround (sub (mul z (widen (Vec3._v0 w))) (mul x (widen (Vec3._v2 w)))))
    (fround (sub (mul x (widen (Vec3._v1 w))) (mul y (widen (Vec3._v0 w))))).

(** A vector all of whose elements are binary32 values. *)
Definition float32_vec (v : vec) : Prop :=
  float32 (Vec3._v0 v) /\ float32 (Vec3._v1 v) /\ float32 (Vec3._v2 v).

Definition components (v : vec) : list spec_float :=
  [Vec3._v0 v; Vec3._v1 v; Vec3._v2 v].

End Vec3Methods.

(** ** Two vectors to run the methods on *)

Module Vec3Samples.

Import JsNumber Vec3Methods.

(** [new Vec3(1, 2, 3)] and [new Vec3(4, 5, 6)]. *)
Definition v123 : vec :=
  constructor (Some (of_Z 1)) (Some (of_Z 2)) (Some (of_Z 3)).

Definition v456 : vec :=
  constructor (Some (of_Z 4)) (Some (of_Z 5)) (Some (of_Z 6)).

End Vec3Samples.

(** * Properties *)

(** ** Strings *)

Module JsStringFacts.

Import JsString.

Lemma substring_all (t : string) : substring 0 (String.length t) t = t.
Proof.
  induction t as [|a t IH]; simpl; [reflexivity|].
  now rewrite IH.
Qed.

Lemma substring_append_skip (q t : string) :
  substring (String.length q) (String.length t) (q ++ t) = t.
Proof.
  induction q as [|a q IH]; simpl.
  - apply substring_all.
  - exact IH.
Qed.

Lemma length_append (q t : string) :
  String.length (q ++ t) = (String.length q + String.length t)%nat.
Proof.
  induction q as [|a q IH]; simpl; [reflexivity|].
  now rewrite IH.
Qed.

Lemma substring_split (s : string) :
  forall i, (i <= String.length s)%nat ->
  s = substring 0 i s ++ substring i (String.length s - i) s.
Proof.
  induction s as [|a s IH]; intros i Hi; simpl in *.
  - destruct i; reflexivity.
  - destruct i as [|i]; simpl.
    + now rewrite substring_all.
    + f_equal. apply IH. lia.
Qed.

(** [endsWith] holds exactly of the strings that are something followed by
    the searched string. *)
Lemma endsWith_spec (s t : string) :
  endsWith s t = true <-> exists q, s = q ++ t.
Proof.
  unfold endsWith. split.
  - destruct (Nat.leb_spec (String.length t) (String.length s)) as [Hle|Hlt];
      [|discriminate].
    intros H. apply String.eqb_eq in H.
    exists (substring 0 (String.length s - String.length t) s).
    pose proof (substring_split s (String.length s - String.length t)) as Hs.
    replace (String.length s - (String.length s - String.length t))%nat
      with (String.length t) in Hs by lia.
    rewrite H in Hs. apply Hs. lia.
  - intros [q ->]. rewrite length_append.
    replace (String.length t <=? String.length q + String.length t)%nat with true
      by (symmetry; apply Nat.leb_le; lia).
    replace (String.length q + String.length t - String.length t)%nat
      with (String.length q) by lia.
    rewrite substring_append_skip. apply String.eqb_refl.
Qed.

Lemma endsWith_false (s t : string) :
  endsWith s t = false <-> forall q, s <> q ++ t.
Proof.
  split.
  - intros H q E. assert (endsWith s t = true) by (apply endsWith_spec; eauto).
    congruence.
  - intros H. destruct (endsWith s t) eqn:E; [|reflexivity].
    apply endsWith_spec in E. destruct E as [q E]. now apply H in E.
Qed.

Lemma append_assoc (a b d : string) : (a ++ b) ++ d = a ++ (b ++ d).
Proof.
  induction a as [|x a IH]; simpl; [reflexivity|]. now rewrite IH.
Qed.

End JsStringFacts.

(** ** Promises *)

Module PromiseAllFacts.

Import PromiseAll.

(** A [Promise.all] that has settled ignores what its inputs do later. *)
Lemma step_settled {A : Type} (s : state A) (x : nat * PromiseState A) :
  result s <> Pending -> step s x = s.
Proof.
  unfold step. destruct (result s); [congruence|reflexivity|reflexivity].
Qed.

Lemma all_settled_once {A : Type} (n : nat) (l more : list (nat * PromiseState A)) :
  all n l <> Pending -> all n (l ++ more) = all n l.
Proof.
  unfold all. rewrite fold_left_app.
  generalize (fold_left step l (init n)). intros s Hs.
  induction more as [|x more IH]; [reflexivity|].
  cbn [fold_left]. now rewrite step_settled.
Qed.

End PromiseAllFacts.

(** ** Maps *)

Module JsMapFacts.

Import JsMap.

Section Facts.

Context {K V : Type} `{EqDec K}.

Lemma get_set_same (k : K) (v : V) (m : t K V) : get k (set k v m) = Some v.
Proof.
  induction m as [|[k' v'] m IH]; simpl.
  - destruct (eq_dec k k); congruence.
  - destruct (eq_dec k k') as [E|N]; simpl.
    + destruct (eq_dec k k); congruence.
    + destruct (eq_dec k k'); congruence.
Qed.

Lemma get_set_other (k k0 : K) (v : V) (m : t K V) :
  k0 <> k -> get k0 (set k v m) = get k0 m.
Proof.
  intros N. induction m as [|[k' v'] m IH]; simpl.
  - destruct (eq_dec k0 k); congruence.
  - destruct (eq_dec k k') as [E|N']; simpl.
    + subst. destruct (eq_dec k0 k'); congruence.
    + destruct (eq_dec k0 k'); congruence.
Qed.

(** Writing the value a key already has changes nothing, not even the
    order. *)
Lemma set_get_same (k : K) (v : V) (m : t K V) :
  get k m = Some v -> set k v m = m.
Proof.
  induction m as [|[k' v'] m IH]; simpl; [discriminate|].
  destruct (eq_dec k k') as [E|N]; intros G.
  - congruence.
  - now rewrite IH.
Qed.

Lemma set_set (k : K) (v1 v2 : V) (m : t K V) :
  set k v2 (set k v1 m) = set k v2 m.
Proof.
  induction m as [|[k' v'] m IH]; simpl.
  - destruct (eq_dec k k); congruence.
  - destruct (eq_dec k k') as [E|N]; simpl.
    + destruct (eq_dec k k); congruence.
    + destruct (eq_dec k k'); [congruence|]. now rewrite IH.
Qed.

Lemma keys_set (k k0 : K) (v : V) (m : t K V) :
  In k0 (keys (set k v m)) <-> k0 = k \/ In k0 (keys m).
Proof.
  unfold keys. induction m as [|[k' v'] m IH]; simpl.
  - intuition.
  - destruct (eq_dec k k') as [E|N]; simpl.
    + subst. intuition.
    + rewrite IH. intuition.
Qed.

(** [set] never introduces a second entry for a key. *)
Lemma NoDup_keys_set (k : K) (v : V) (m : t K V) :
  NoDup (keys m) -> NoDup (keys (set k v m)).
Proof.
  unfold keys. induction m as [|[k' v'] m IH]; simpl; intros ND.
  - constructor; [intros []|constructor].
  - inversion ND as [|? ? Hnotin ND']; subst.
    destruct (eq_dec k k') as [E|N]; simpl.
    + subst. now constructor.
    + constructor; [|now apply IH].
      intros Hin. apply (keys_set k k' v m) in Hin.
      destruct Hin as [E|Hin]; [congruence|exact (Hnotin Hin)].
Qed.

(** With unique keys, the entries are what [get] finds. *)
Lemma In_get (k : K) (v : V) (m : t K V) :
  NoDup (keys m) -> (In (k, v) m <-> get k m = Some v).
Proof.
  unfold keys. induction m as [|[k' v'] m IH]; simpl; intros ND.
  - split; [intros []|discriminate].
  - inversion ND as [|? ? Hnotin ND']; subst.
    destruct (eq_dec k k') as [E|N].
    + subst. split.
      * intros [E|Hin]; [congruence|].
        exfalso. apply Hnotin. apply in_map_iff. now exists (k', v).
      * intros E. left. congruence.
    + rewrite <- (IH ND'). split.
      * intros [E|Hin]; [congruence|assumption].
      * now right.
Qed.

Lemma In_set (k k0 : K) (v v0 : V) (m : t K V) :
  In (k, v) (set k0 v0 m) -> (k, v) = (k0, v0) \/ In (k, v) m.
Proof.
  induction m as [|[k' v'] m IH]; simpl.
  - intros [E|[]]. left. congruence.
  - destruct (eq_dec k0 k') as [E|N]; simpl.
    + intros [E'|Hin]; [left; congruence|right; now right].
    + intros [E'|Hin]; [right; now left|].
      destruct (IH Hin) as [E'|Hin']; [now left|right; now right].
Qed.

Lemma set_all_cons (e : K * V) (entries : list (K * V)) (m : t K V) :
  set_all (e :: entries) m = set_all entries (set (fst e) (snd e) m).
Proof. reflexivity. Qed.

Lemma NoDup_keys_set_all (entries : list (K * V)) :
  forall m : t K V, NoDup (keys m) -> NoDup (keys (set_all entries m)).
Proof.
  induction entries as [|e entries IH]; intros m ND; [exact ND|].
  rewrite set_all_cons. apply IH. now apply NoDup_keys_set.
Qed.

(** Every entry of the result was written or was there before. *)
Lemma In_set_all (k : K) (v : V) (entries : list (K * V)) :
  forall m : t K V,
  In (k, v) (set_all entries m) -> In (k, v) entries \/ In (k, v) m.
Proof.
  induction entries as [|e entries IH]; intros m Hin; [now right|].
  rewrite set_all_cons in Hin. destruct (IH _ Hin) as [H1|H1].
  - left. now right.
  - destruct (In_set _ _ _ _ _ H1) as [E|H2]; [|now right].
    left. left. destruct e; simpl in *. congruence.
Qed.

(** A key keeps its value through writes that agree with it. *)
Lemma get_set_all_stable (k : K) (v : V) (entries : list (K * V)) :
  (forall v', In (k, v') entries -> v' = v) ->
  forall m : t K V, get k m = Some v -> get k (set_all entries m) = Some v.
Proof.
  induction entries as [|[k' v'] entries IH]; intros Hf m G; [exact G|].
  rewrite set_all_cons. apply IH.
  - intros v0 Hin. apply Hf. now right.
  - simpl. destruct (eq_dec k k') as [E|N].
    + subst k'. rewrite get_set_same. f_equal. apply Hf. now left.
    + rewrite get_set_other by exact N. exact G.
Qed.

(** When the value written is a function of the key, every entry written
    is found afterwards. *)
Lemma get_set_all (f : K -> V) (entries : list (K * V)) :
  (forall k v, In (k, v) entries -> v = f k) ->
  forall (m : t K V) k v, In (k, v) entries -> get k (set_all entries m) = Some v.
Proof.
  induction entries as [|[k' v'] entries IH]; intros Hf m k v Hin; [destruct Hin|].
  rewrite set_all_cons. destruct Hin as [E|Hin].
  - inversion E; subst. simpl. apply get_set_all_stable.
    + intros v0 Hin0. rewrite (Hf k v0) by now right.
      symmetry. apply Hf. now left.
    + apply get_set_same.
  - apply IH; [|exact Hin]. intros k0 v0 H0. apply Hf. now right.
Qed.

(** Writing entries that are all there already changes nothing. *)
Lemma set_all_present (entries : list (K * V)) (m : t K V) :
  (forall k v, In (k, v) entries -> get k m = Some v) ->
  set_all entries m = m.
Proof.
  induction entries as [|[k v] entries IH]; intros Hp; [reflexivity|].
  rewrite set_all_cons. simpl. rewrite set_get_same by (apply Hp; now left).
  apply IH. intros k0 v0 H0. apply Hp. now right.
Qed.

Lemma set_all_twice (f : K -> V) (entries : list (K * V)) (m : t K V) :
  (forall k v, In (k, v) entries -> v = f k) ->
  set_all entries (set_all entries m) = set_all entries m.
Proof.
  intros Hf. apply set_all_present. intros k v Hin.
  now apply (get_set_all f).
Qed.

Lemma set_fresh (k : K) (v : V) (m : t K V) :
  ~ In k (keys m) -> set k v m = (m ++ [(k, v)])%list.
Proof.
  unfold keys. induction m as [|[k' v'] m IH]; simpl; intros Hn; [reflexivity|].
  destruct (eq_dec k k') as [E|N]; [exfalso; apply Hn; left; congruence|].
  rewrite IH; [reflexivity|]. intros Hin. apply Hn. now right.
Qed.

(** Entries with pairwise distinct keys, none of them in the map yet, are
    appended as they come. *)
Lemma set_all_fresh (entries : list (K * V)) :
  forall m : t K V,
  NoDup (keys (m ++ entries)%list) -> set_all entries m = (m ++ entries)%list.
Proof.
  unfold keys. induction entries as [|[k v] entries IH]; intros m ND.
  - now rewrite app_nil_r.
  - rewrite set_all_cons. cbn [fst snd]. rewrite map_app in ND. cbn [map fst] in ND.
    rewrite set_fresh.
    + rewrite IH; [now rewrite <- app_assoc|].
      rewrite <- app_assoc. cbn [app]. rewrite map_app. exact ND.
    + intros Hin. apply NoDup_remove_2 in ND. apply ND.
      apply in_or_app. now left.
Qed.

(** Entries written into an empty map, the value being a function of the
    key: the map holds exactly the entries written, one per key. *)
Lemma set_all_empty (f : K -> V) (entries : list (K * V)) :
  (forall k v, In (k, v) entries -> v = f k) ->
  NoDup (keys (set_all entries empty))
  /\ (forall k v, In (k, v) (set_all entries empty) <-> In (k, v) entries).
Proof.
  intros Hf.
  assert (ND : NoDup (keys (set_all entries (@empty K V)))).
  { apply NoDup_keys_set_all. constructor. }
  split; [exact ND|]. intros k v. split.
  - intros Hin. destruct (In_set_all _ _ _ _ Hin) as [H1|[]]. exact H1.
  - intros Hin. apply (In_get _ _ _ ND). now apply (get_set_all f).
Qed.

End Facts.

End JsMapFacts.


(** ** The pieces of the pipeline *)

Module ProgramFacts.

Import Program JsMap JsMapFacts.

Local Arguments String.append : simpl never.

Section Facts.

Variable c : WebGL.Context.

Local Abbreviation St := (State c (Instance c)).

Lemma first_error_quiet (evs : list (Event c)) :
  Forall (fun ev => quiet ev = true) evs -> first_error evs = None.
Proof.
  induction 1 as [|ev evs Hq _ IH]; simpl; [reflexivity|].
  destruct ev; simpl in *; try discriminate; exact IH.
Qed.

Lemma the_program_some (st : St) (p : WebGL.WebGLProgram c) :
  _program (this st) = Some p -> the_program st = (Ok p, st).
Proof.
  intros Hp. unfold the_program, bind, read_this. rewrite Hp. reflexivity.
Qed.

(** One turn of the loop on an object that has a program and the map of
    the class, with both context methods found. *)
Lemma qualify_step_ok (parameter : GLenum) (pf af lf : string) (idx : Z) (st : St)
  p a l m :
  _program (this st) = Some p ->
  WebGL.getActive_method c af = Some a ->
  WebGL.getLocation_method c lf = Some l ->
  get parameter (_parameters (this st)) = Some m ->
  let n := WebGL.name (a (gl st) p idx) in
  let loc := l (gl st) p n in
  qualify_step parameter pf af lf idx st
  = (Ok tt,
     {| gl := gl st;
        trace := trace st
                 ++ [EvGetActive af p idx (a (gl st) p idx);
                     EvGetLocation lf p n loc;
                     EvLog ("Found " ++ pf ++ " : " ++ n ++ " with index "
                            ++ WebGL.location_toString c loc)];
        this := set_parameters (this st)
                  (set parameter (set n loc m) (_parameters (this st))) |}).
Proof.
  intros Hp Ha Hl Hm n loc.
  unfold qualify_step, bind. rewrite (the_program_some st p Hp), Ha.
  unfold gl_get at 1. cbn [gl trace this emit_].
  erewrite the_program_some by (cbn [this]; exact Hp). rewrite Hl.
  unfold gl_get, read_this, emit_. cbn [gl trace this].
  rewrite Hm. unfold write_this, dl, emit, emit_. cbn [gl trace this].
  repeat rewrite <- app_assoc. reflexivity.
Qed.

Lemma get_set_parameter (parameter : GLenum) (v : JsMap.t string (WebGL.Location c))
  (m : JsMap.t GLenum (JsMap.t string (WebGL.Location c))) :
  get parameter (set parameter v m) = Some v.
Proof. apply get_set_same. Qed.

(** The loop of [qualify], same conditions: it ends normally, leaves the
    driver alone, logs only debug lines and introspection queries, and
    has written the entries of its indices, in order, into the map of the
    class. *)
Lemma for_qualify_ok (parameter : GLenum) (pf af lf : string) p a l :
  WebGL.getActive_method c af = Some a ->
  WebGL.getLocation_method c lf = Some l ->
  forall (count : nat) (idx : Z) (st : St) m,
  _program (this st) = Some p ->
  get parameter (_parameters (this st)) = Some m ->
  exists st',
    for_ count idx (qualify_step parameter pf af lf) st = (Ok tt, st')
    /\ gl st' = gl st
    /\ (exists evs, trace st' = (trace st ++ evs)%list
                    /\ Forall (fun ev => quiet ev = true) evs)
    /\ same_but_parameters (this st) (this st')
    /\ _parameters (this st')
       = set parameter
           (set_all
              (map (fun i => let n := WebGL.name (a (gl st) p i) in
                             (n, l (gl st) p n))
                   (indices count idx)) m)
           (_parameters (this st)).
Proof.
  intros Ha Hl count.
  induction count as [|count IH]; intros idx st m Hp Hm.
  - exists st. simpl. repeat split.
    + exists []. split; [now rewrite app_nil_r|constructor].
    + unfold set_all. simpl. symmetry. now apply set_get_same.
  - simpl for_. unfold bind.
    rewrite (qualify_step_ok parameter pf af lf idx st p a l m Hp Ha Hl Hm).
    cbv zeta.
    set (n := WebGL.name (a (gl st) p idx)).
    set (loc := l (gl st) p n).
    match goal with
    | |- context [for_ count (idx + 1)%Z _ ?s] => set (st1 := s)
    end.
    destruct (IH (idx + 1)%Z st1 (set n loc m)) as (st' & Hrun & Hgl & Htr & Hsame & Hpar).
    + exact Hp.
    + apply get_set_parameter.
    + exists st'. split; [exact Hrun|]. split; [exact Hgl|].
      destruct Htr as (evs & Htr & Hq).
      split; [|split].
      * eexists. split.
        -- rewrite Htr. subst st1. cbn [trace]. rewrite <- app_assoc. reflexivity.
        -- repeat constructor. exact Hq.
      * exact Hsame.
      * rewrite Hpar. subst st1. cbn [this gl set_parameters _parameters].
        rewrite set_set. reflexivity.
Qed.

(** Only the two parameter classes find their context methods. *)
Lemma methods_found (parameter : GLenum) a :
  WebGL.getActive_method c
    ("getActive" ++ toString (get parameter QUALIFYING_FUNCTION)) = Some a ->
  (parameter = ACTIVE_UNIFORMS /\ a = WebGL.getActiveUniform c
   /\ WebGL.getLocation_method c
        ("get" ++ toString (get parameter QUALIFYING_FUNCTION) ++ "Location")
      = Some (WebGL.getUniformLocation c))
  \/ (parameter = ACTIVE_ATTRIBUTES /\ a = WebGL.getActiveAttrib c
      /\ WebGL.getLocation_method c
           ("get" ++ toString (get parameter QUALIFYING_FUNCTION) ++ "Location")
         = Some (WebGL.getAttribLocation c)).
Proof.
  destruct parameter; cbn; intros E; try discriminate; inversion E; auto.
Qed.

(** [qualify] on an object that has a program and the map of the class. *)
Lemma qualify_ok (parameter : GLenum) (st : St) p a l m :
  WebGL.getActive_method c
    ("getActive" ++ toString (get parameter QUALIFYING_FUNCTION)) = Some a ->
  WebGL.getLocation_method c
    ("get" ++ toString (get parameter QUALIFYING_FUNCTION) ++ "Location") = Some l ->
  _program (this st) = Some p ->
  get parameter (_parameters (this st)) = Some m ->
  exists st',
    qualify parameter st = (Ok VUndefined, st')
    /\ gl st' = gl st
    /\ (exists evs, trace st' = (trace st ++ evs)%list
                    /\ Forall (fun ev => quiet ev = true) evs)
    /\ same_but_parameters (this st) (this st')
    /\ _parameters (this st')
       = set parameter (set_all (reported a l parameter (gl st) p) m)
           (_parameters (this st)).
Proof.
  intros Ha Hl Hp Hm.
  unfold qualify, bind, dl, emit.
  erewrite the_program_some by (cbn [this emit_]; exact Hp).
  unfold gl_get. cbn [gl trace this emit_].
  match goal with
  | |- context [for_ ?n ?i ?b ?s] =>
      destruct (for_qualify_ok parameter
                  (toString (get parameter QUALIFYING_FUNCTION)) _ _ p a l Ha Hl
                  n i s m Hp Hm)
        as (st' & Hrun & Hgl & (evs & Htr & Hq) & Hsame & Hpar)
  end.
  rewrite Hrun. exists st'. split; [reflexivity|].
  unfold emit_ in *. cbn [gl trace this] in *.
  split; [exact Hgl|]. split; [|split; [exact Hsame|exact Hpar]].
  eexists. split.
  - rewrite Htr. repeat rewrite <- app_assoc. reflexivity.
  - constructor; [reflexivity|]. constructor; [|exact Hq].
    destruct (methods_found parameter a Ha) as [(-> & _)|(-> & _)]; reflexivity.
Qed.

Lemma reported_functional a l (parameter : GLenum) g p k v :
  In (k, v) (reported (c := c) a l parameter g p) -> v = l g p k.
Proof.
  unfold reported. rewrite in_map_iff. intros (idx & E & _).
  cbv zeta in E. congruence.
Qed.

(** [qualifyAll] on an object that has a program and both maps. *)
Lemma qualifyAll_ok (st : St) p mU mA :
  _program (this st) = Some p ->
  get ACTIVE_UNIFORMS (_parameters (this st)) = Some mU ->
  get ACTIVE_ATTRIBUTES (_parameters (this st)) = Some mA ->
  exists st',
    qualifyAll st = (Ok (Fulfilled [VUndefined; VUndefined]), st')
    /\ gl st' = gl st
    /\ (exists evs, trace st' = (trace st ++ evs)%list
                    /\ Forall (fun ev => quiet ev = true) evs)
    /\ same_but_parameters (this st) (this st')
    /\ _parameters (this st')
       = set ACTIVE_ATTRIBUTES (set_all (active_attributes (gl st) p) mA)
           (set ACTIVE_UNIFORMS (set_all (active_uniforms (gl st) p) mU)
              (_parameters (this st))).
Proof.
  intros Hp HU HA. unfold qualifyAll, bind.
  destruct (qualify_ok ACTIVE_UNIFORMS st p _ _ mU eq_refl eq_refl Hp HU)
    as (st1 & Hrun1 & Hgl1 & (evs1 & Htr1 & Hq1) & Hsame1 & Hpar1).
  rewrite Hrun1.
  assert (Hp1 : _program (this st1) = Some p).
  { destruct Hsame1 as (_ & _ & E & _). now rewrite E. }
  assert (HA1 : get ACTIVE_ATTRIBUTES (_parameters (this st1)) = Some mA).
  { rewrite Hpar1, get_set_other by discriminate. exact HA. }
  destruct (qualify_ok ACTIVE_ATTRIBUTES st1 p _ _ mA eq_refl eq_refl Hp1 HA1)
    as (st2 & Hrun2 & Hgl2 & (evs2 & Htr2 & Hq2) & Hsame2 & Hpar2).
  rewrite Hrun2. exists st2. split; [reflexivity|].
  split; [congruence|]. split; [|split].
  - exists (evs1 ++ evs2)%list. split.
    + rewrite Htr2, Htr1, app_assoc. reflexivity.
    + apply Forall_app. now split.
  - unfold same_but_parameters in *. intuition congruence.
  - rewrite Hpar2, Hpar1, Hgl1. reflexivity.
Qed.

(** The [(body) => ...] callback of [createShader], in one piece. *)
Lemma createShader_body_run (type : GLenum) (body : string) (st : St) :
  createShader_body type body st
  = let sh := fst (WebGL.createShader c (gl st) type) in
    let g := WebGL.compileShader c
               (WebGL.shaderSource c (snd (WebGL.createShader c (gl st) type)) sh body)
               sh in
    let status := WebGL.getShaderParameter c g sh COMPILE_STATUS in
    let log := WebGL.getShaderInfoLog c g sh in
    let tr := (trace st
               ++ [EvLog ("Creating "
                          ++ (if eq_dec type VERTEX_SHADER then "vertex" else "fragment")
                          ++ " shader for program " ++ JsString.dquote
                          ++ _name (this st) ++ JsString.dquote ++ ".");
                   EvCreateShader type sh; EvShaderSource sh body;
                   EvCompileShader sh;
                   EvGetShaderParameter sh COMPILE_STATUS status])%list in
    if truthy status
    then (Ok sh,
          {| gl := g; trace := tr;
             this := set_shaders (this st) (set type sh (_shaders (this st))) |})
    else (Throw (Error ("Error compiling shader: " ++ log)),
          {| gl := g;
             trace := (tr ++ [EvGetShaderInfoLog sh log;
                              EvThrow (Error ("Error compiling shader: " ++ log))])%list;
             this := this st |}).
Proof.
  cbv [createShader_body bind read_this dl emit emit_ gl_new gl_do
         gl_get throw write_this ret].
  cbn [gl trace this].
  destruct (WebGL.createShader c (gl st) type) as [sh g1]. cbn [fst snd gl trace this].
  destruct (truthy _); cbn [negb gl trace this];
    repeat rewrite <- app_assoc; reflexivity.
Qed.

(** [compileProgram] on the two shaders, in one piece. *)
Lemma compileProgram_run (sv sf : WebGL.WebGLShader c) (st : St) :
  compileProgram [sv; sf] st
  = let p := fst (WebGL.createProgram c (gl st)) in
    let g := WebGL.linkProgram c
               (WebGL.attachShader c
                  (WebGL.attachShader c (snd (WebGL.createProgram c (gl st))) p sv)
                  p sf) p in
    let linked := WebGL.getProgramParameter c g p LINK_STATUS in
    let tr := (trace st
               ++ [EvLog ("Compiling program " ++ _name (this st) ++ ".");
                   EvCreateProgram p; EvAttachShader p sv; EvAttachShader p sf;
                   EvLinkProgram p; EvGetProgramParameter p LINK_STATUS linked])%list in
    let i := set_program (this st) (Some p) in
    if truthy linked
    then
      let g' := WebGL.validateProgram c g p in
      let valid := WebGL.getProgramParameter c g' p VALIDATE_STATUS in
      let tr' := (tr ++ [EvValidateProgram p;
                         EvGetProgramParameter p VALIDATE_STATUS valid])%list in
      if truthy valid
      then (Ok tt, {| gl := g'; trace := tr'; this := i |})
      else
        let e := Error ("Unable to validate program " ++ JsString.dquote
                        ++ _name (this st) ++ JsString.dquote) in
        (Throw e, {| gl := g'; trace := (tr' ++ [EvThrow e])%list; this := i |})
    else
      let e := Error ("Unable to ling program " ++ JsString.dquote
                      ++ _name (this st) ++ JsString.dquote) in
      (Throw e, {| gl := g; trace := (tr ++ [EvThrow e])%list; this := i |}).
Proof.
  cbv [compileProgram bind read_this dl emit emit_ gl_new gl_do
         gl_get throw write_this ret the_program fold_right].
  cbn [gl trace this].
  destruct (WebGL.createProgram c (gl st)) as [p g1].
  cbn [fst snd gl trace this set_program _program].
  destruct (truthy _); cbn [negb gl trace this set_program _program].
  - destruct (truthy _); cbn [negb gl trace this];
      repeat rewrite <- app_assoc; reflexivity.
  - repeat rewrite <- app_assoc; reflexivity.
Qed.


Lemma createShader_run (type : GLenum) (st : St) :
  createShader type st
  = (_path (this st) ++ _name (this st) ++ toString (get type SHADER_EXTENSIONS),
     {| gl := gl st;
        trace := (trace st
                 ++ [EvLog ("Loading : " ++ _path (this st) ++ _name (this st)
                            ++ toString (get type SHADER_EXTENSIONS));
                     EvFetch (_path (this st) ++ _name (this st)
                              ++ toString (get type SHADER_EXTENSIONS))])%list;
        this := this st |}).
Proof.
  unfold createShader, emit_. cbn [gl trace this]. rewrite <- app_assoc. reflexivity.
Qed.

(** How one shader chain can settle. *)
Lemma createShader_settle_cases (net : Net.Network) (type : GLenum) (file : string)
  (st : St) :
  (exists cause,
      Net.fetch net file = Net.NetworkError cause
      /\ createShader_settle net type file st
         = (Rejected cause,
            {| gl := gl st;
               trace := (trace st ++ [EvFetchRejected file cause])%list;
               this := this st |}))
  \/ (exists response sh g status line,
         Net.fetch net file = Net.Responded response
         /\ status = WebGL.getShaderParameter c g sh COMPILE_STATUS
         /\ ((truthy status = true
              /\ createShader_settle net type file st
                 = (Fulfilled sh,
                    {| gl := g;
                       trace := (trace st
                                 ++ [EvFetchResponse file (Net.status response);
                                     EvLog line;
                                     EvCreateShader type sh;
                                     EvShaderSource sh (Net.text response);
                                     EvCompileShader sh;
                                     EvGetShaderParameter sh COMPILE_STATUS status])%list;
                       this := set_shaders (this st)
                                 (set type sh (_shaders (this st))) |}))
             \/ (truthy status = false
                 /\ exists log,
                     log = WebGL.getShaderInfoLog c g sh
                     /\ createShader_settle net type file st
                        = (Rejected (Error ("Error compiling shader: " ++ log)),
                           {| gl := g;
                              trace := (trace st
                                        ++ [EvFetchResponse file (Net.status response);
                                            EvLog line;
                                            EvCreateShader type sh;
                                            EvShaderSource sh (Net.text response);
                                            EvCompileShader sh;
                                            EvGetShaderParameter sh COMPILE_STATUS status;
                                            EvGetShaderInfoLog sh log;
                                            EvThrow (Error ("Error compiling shader: "
                                                            ++ log))])%list;
                              this := this st |})))).
Proof.
  unfold createShader_settle.
  destruct (Net.fetch net file) as [cause|response].
  - left. exists cause. split; reflexivity.
  - right. rewrite createShader_body_run. cbv zeta. unfold emit_. cbn [gl trace this].
    destruct (truthy _) eqn:Ht;
      exists response; do 4 eexists; (split; [reflexivity|]); (split; [reflexivity|]).
    + left. split; [exact Ht|]. rewrite <- app_assoc. reflexivity.
    + right. split; [exact Ht|]. eexists. split; [reflexivity|].
      repeat rewrite <- app_assoc. reflexivity.
Qed.

(** How [compileProgram] can end on the two shaders. *)
Lemma compileProgram_cases (sv sf : WebGL.WebGLShader c) (st : St) :
  exists p g linked line,
    linked = WebGL.getProgramParameter c g p LINK_STATUS
    /\ ((truthy linked = false
         /\ compileProgram [sv; sf] st
            = (Throw (Error ("Unable to ling program " ++ JsString.dquote
                             ++ _name (this st) ++ JsString.dquote)),
               {| gl := g;
                  trace := (trace st
                            ++ [EvLog line; EvCreateProgram p; EvAttachShader p sv;
                                EvAttachShader p sf; EvLinkProgram p;
                                EvGetProgramParameter p LINK_STATUS linked;
                                EvThrow (Error ("Unable to ling program "
                                                ++ JsString.dquote ++ _name (this st)
                                                ++ JsString.dquote))])%list;
                  this := set_program (this st) (Some p) |}))
        \/ (truthy linked = true
            /\ exists g' valid,
                valid = WebGL.getProgramParameter c g' p VALIDATE_STATUS
                /\ ((truthy valid = false
                     /\ compileProgram [sv; sf] st
                        = (Throw (Error ("Unable to validate program "
                                         ++ JsString.dquote ++ _name (this st)
                                         ++ JsString.dquote)),
                           {| gl := g';
                              trace := (trace st
                                        ++ [EvLog line; EvCreateProgram p;
                                            EvAttachShader p sv; EvAttachShader p sf;
                                            EvLinkProgram p;
                                            EvGetProgramParameter p LINK_STATUS linked;
                                            EvValidateProgram p;
                                            EvGetProgramParameter p VALIDATE_STATUS valid;
                                            EvThrow (Error ("Unable to validate program "
                                                            ++ JsString.dquote
                                                            ++ _name (this st)
                                                            ++ JsString.dquote))])%list;
                              this := set_program (this st) (Some p) |}))
                    \/ (truthy valid = true
                        /\ compileProgram [sv; sf] st
                           = (Ok tt,
                              {| gl := g';
                                 trace := (trace st
                                           ++ [EvLog line; EvCreateProgram p;
                                               EvAttachShader p sv; EvAttachShader p sf;
                                               EvLinkProgram p;
                                               EvGetProgramParameter p LINK_STATUS linked;
                                               EvValidateProgram p;
                                               EvGetProgramParameter p VALIDATE_STATUS
                                                 valid])%list;
                                 this := set_program (this st) (Some p) |}))))).
Proof.
  rewrite compileProgram_run. cbv zeta.
  destruct (truthy (WebGL.getProgramParameter c _ _ LINK_STATUS)) eqn:Hl;
    [destruct (truthy (WebGL.getProgramParameter c _ _ VALIDATE_STATUS)) eqn:Hv|];
    do 4 eexists; (split; [reflexivity|]).
  - right. split; [exact Hl|]. do 2 eexists.
    split; [reflexivity|]. right. split; [exact Hv|].
    rewrite <- app_assoc. reflexivity.
  - right. split; [exact Hl|]. do 2 eexists.
    split; [reflexivity|]. left. split; [exact Hv|].
    repeat rewrite <- app_assoc. reflexivity.
  - left. split; [exact Hl|]. rewrite <- app_assoc. reflexivity.
Qed.

(** What the constructor leaves in the object it returns. *)
Lemma constructor_ok (args : Args) (st0 : State c unit) (inst : Instance c) :
  fst (constructor c args st0) = Ok inst ->
  _program inst = None
  /\ _shaders inst = JsMap.empty
  /\ _parameters inst
     = [(ACTIVE_UNIFORMS, JsMap.empty); (ACTIVE_ATTRIBUTES, JsMap.empty)]
  /\ name args = Some (_name inst)
  /\ _name inst <> EmptyString.
Proof.
  unfold constructor. destruct (name args) as [[|ch n]|]; cbn; try discriminate.
  intros E. inversion E; subst; clear E. cbn. repeat split. discriminate.
Qed.

Lemma no_failure_forallb (tr : list (Event c)) :
  (forall ev, In ev tr -> reports_failure ev = false) ->
  forallb (fun ev => negb (reports_failure ev)) tr = true.
Proof.
  intros H. apply forallb_forall. intros ev Hin. now rewrite (H ev Hin).
Qed.

Lemma after_create_quiet (type : GLenum) (evs : list (Event c)) :
  Forall (fun ev => quiet ev = true) evs -> after_create type evs = [].
Proof.
  induction 1 as [|ev evs Hq _ IH]; [reflexivity|].
  destruct ev; cbn in Hq; try discriminate Hq; exact IH.
Qed.

Lemma quiet_In (evs : list (Event c)) (ev : Event c) :
  Forall (fun ev => quiet ev = true) evs -> In ev evs -> quiet ev = true.
Proof. intros Hq Hin. rewrite Forall_forall in Hq. now apply Hq. Qed.

Lemma consecutive_prefix (evs l post : list (Event c)) :
  l = (evs ++ post)%list -> consecutive evs l.
Proof. intros ->. now exists [], post. Qed.

Lemma consecutive_cons (evs l : list (Event c)) (e : Event c) :
  consecutive evs l -> consecutive evs (e :: l).
Proof. intros (pre & post & ->). now exists (e :: pre), post. Qed.

End Facts.

(** *** Running [ready] by cases *)

Ltac simpl_state :=
  cbn [gl trace this fst snd app set_shaders set_program set_parameters
       _name _shaders _program _parameters _path].

Ltac simpl_state_all :=
  cbn [gl trace this fst snd app set_shaders set_program set_parameters
       _name _shaders _program _parameters _path] in *.

Ltac settle_case :=
  match goal with
  | |- context [createShader_settle ?n ?t ?f ?s] =>
      let Hrun := fresh "Hrun" in
      destruct (createShader_settle_cases _ n t f s)
        as [(?cause & ?Hfetch & Hrun)
           |(?response & ?sh & ?g & ?status & ?line & ?Hfetch & ?Hstatus
             & [(?Hcompiled & Hrun)|(?Hcompiled & ?log & ?Hlog & Hrun)])];
      rewrite !Hrun; clear Hrun; simpl_state
  end.

Ltac compile_case :=
  match goal with
  | |- context [compileProgram [?sv; ?sf] ?s] =>
      let Hrun := fresh "Hrun" in
      destruct (compileProgram_cases _ sv sf s)
        as (?p & ?g & ?linked & ?line & ?Hlinked
            & [(?Hlink & Hrun)
              |(?Hlink & ?g & ?valid & ?Hvalid
                & [(?Hval & Hrun)|(?Hval & Hrun)])]);
      rewrite !Hrun; clear Hrun; simpl_state
  end.

Ltac promise_all :=
  cbv [PromiseAll.all PromiseAll.step PromiseAll.init fold_left repeat
       PromiseAll.store PromiseAll.collect PromiseAll.result PromiseAll.values
       PromiseAll.remaining pred];
  cbn [fst snd].

Ltac qualify_case HU HA :=
  match goal with
  | |- context [qualifyAll ?s] =>
      let Hrun := fresh "Hrun" in
      destruct (qualifyAll_ok _ s _ _ _ eq_refl HU HA)
        as (?st' & Hrun & ?Hgl & (?evs & ?Htrace & ?Hquiet) & ?Hsame & ?Hpar);
      rewrite !Hrun; clear Hrun; simpl_state_all
  end.

(** All the ways [ready] can go on an object whose parameter maps [HU] and
    [HA] describe. *)
Ltac run_ready HU HA :=
  unfold ready, ready_history; rewrite !createShader_run; simpl_state;
  change (toString (get VERTEX_SHADER SHADER_EXTENSIONS)) with ".vert";
  change (toString (get FRAGMENT_SHADER SHADER_EXTENSIONS)) with ".frag";
  unfold settle_shaders;
  destruct (Net.order _) eqn:?Horder;
  settle_case; settle_case; promise_all;
  unfold then_promise, then_;
  try (compile_case; try qualify_case HU HA).

(** Splits the membership of an entry in an explicit trace into its
    cases, drops the impossible ones and leaves the fact of each other
    case as [Hev]. *)
Ltac split_or H k :=
  lazymatch type of H with
  | _ \/ _ => let H1 := fresh "Hor" in destruct H as [H1|H1]; split_or H1 k
  | False => destruct H
  | _ => k H
  end.

Ltac close_entry H :=
  first
    [ discriminate H
    | match goal with
      | Hq : Forall (fun ev => quiet ev = true) ?evs |- _ =>
          match type of H with
          | In _ evs =>
              let Q := fresh "Q" in
              pose proof (quiet_In _ evs _ Hq H) as Q; cbn in Q; discriminate Q
          end
      end
    | rename H into Hev ].

Ltac in_trace H :=
  cbn [gl trace this fst snd] in H;
  repeat rewrite in_app_iff in H; cbn [In] in H; split_or H close_entry.

(** Finds an entry in an explicit trace. *)
Ltac find_in :=
  lazymatch goal with
  | |- In _ (_ ++ _) => apply in_or_app; left; find_in
  | |- In _ (_ :: _) => first [left; reflexivity | right; find_in]
  end.

(** Finds entries that follow one another in an explicit trace. *)
Ltac find_consecutive :=
  first [ solve [eapply consecutive_prefix; cbn [app]; reflexivity]
        | apply consecutive_cons; find_consecutive ].

End ProgramFacts.

(** ** The claims about the program loader *)

Module ProgramClaims.

Import Program JsMap JsMapFacts ProgramFacts.

Local Arguments String.append : simpl never.

Section Claims.

Variable c : WebGL.Context.

(** C4. When both shaders compile and the link-status query reports
    failure, [ready()] rejects with the link error, validation is never
    attempted, no introspection query is made and both parameter maps stay
    empty.  Validation is attempted only after a link-status query that
    reported success, and a validate-status failure rejects with the
    validation error.  Both checks are made: a link-status query that
    reported success is followed at once by [validateProgram] and the
    validate-status query on the same program, and when both shaders
    compiled the link-status query is made. *)
Theorem link_failure_rejects (args : Args) (st0 : State c unit) (inst : Instance c)
  (net : Net.Network) (g : WebGL.GL c) :
  fst (constructor c args st0) = Ok inst ->
  let r := ready net {| gl := g; trace := []; this := inst |} in
  (forall p v,
      In (EvGetProgramParameter p LINK_STATUS v) (trace (snd r)) ->
      truthy v = false ->
      fst r = Rejected (Error ("Unable to ling program " ++ JsString.dquote
                               ++ _name inst ++ JsString.dquote))
      /\ (exists sv sf vv vf,
             In (EvCreateShader VERTEX_SHADER sv) (trace (snd r))
             /\ In (EvCreateShader FRAGMENT_SHADER sf) (trace (snd r))
             /\ In (EvGetShaderParameter sv COMPILE_STATUS vv) (trace (snd r))
             /\ truthy vv = true
             /\ In (EvGetShaderParameter sf COMPILE_STATUS vf) (trace (snd r))
             /\ truthy vf = true
             /\ In (EvAttachShader p sv) (trace (snd r))
             /\ In (EvAttachShader p sf) (trace (snd r)))
      /\ (forall ev, In ev (trace (snd r)) -> validates ev = false)
      /\ (forall ev, In ev (trace (snd r)) -> introspects ev = false)
      /\ get ACTIVE_UNIFORMS (_parameters (this (snd r))) = Some JsMap.empty
      /\ get ACTIVE_ATTRIBUTES (_parameters (this (snd r))) = Some JsMap.empty)
  /\ (forall p,
         In (EvValidateProgram p) (trace (snd r)) ->
         exists v, In (EvGetProgramParameter p LINK_STATUS v) (trace (snd r))
                   /\ truthy v = true)
  /\ (forall p v,
         In (EvGetProgramParameter p VALIDATE_STATUS v) (trace (snd r)) ->
         truthy v = false ->
         fst r = Rejected (Error ("Unable to validate program " ++ JsString.dquote
                                  ++ _name inst ++ JsString.dquote)))
  /\ (forall p v,
         In (EvGetProgramParameter p LINK_STATUS v) (trace (snd r)) ->
         truthy v = true ->
         exists vv,
           consecutive [EvGetProgramParameter p LINK_STATUS v; EvValidateProgram p;
                        EvGetProgramParameter p VALIDATE_STATUS vv] (trace (snd r)))
  /\ (forall vv vf,
         compile_status_of VERTEX_SHADER (trace (snd r)) = Some vv ->
         truthy vv = true ->
         compile_status_of FRAGMENT_SHADER (trace (snd r)) = Some vf ->
         truthy vf = true ->
         exists p v, In (EvGetProgramParameter p LINK_STATUS v) (trace (snd r))).
Proof.
  intros Hc. destruct (constructor_ok c args st0 inst Hc) as (Hp & Hs & Hpar & Hn & Hne).
  assert (HU : get ACTIVE_UNIFORMS (_parameters inst) = Some []) by now rewrite Hpar.
  assert (HA : get ACTIVE_ATTRIBUTES (_parameters inst) = Some []) by now rewrite Hpar.
  intros r. subst r. split; [|split; [|split; [|split]]].
  - intros p v.
    run_ready HU HA; intros Hin Hv; try rewrite Htrace in Hin; in_trace Hin;
      try (inversion Hev; subst; congruence).
    all: inversion Hev; subst; clear Hev.
    all: split; [reflexivity|].
    all: split;
      [do 4 eexists; simpl_state;
       repeat (split; [first [find_in | eassumption]|]);
       first [find_in | eassumption]|].
    all: split; [intros ev Hin; in_trace Hin; subst ev; reflexivity|].
    all: split; [intros ev Hin; in_trace Hin; subst ev; reflexivity|].
    all: rewrite Hpar; split; reflexivity.
  - intros p.
    run_ready HU HA; intros Hin; try rewrite Htrace in Hin; in_trace Hin.
    all: inversion Hev; subst; clear Hev.
    all: eexists; split; [simpl_state; try rewrite Htrace; find_in|eassumption].
  - intros p v.
    run_ready HU HA; intros Hin Hv; try rewrite Htrace in Hin; in_trace Hin;
      try (inversion Hev; subst; congruence).
  - intros p v.
    run_ready HU HA; intros Hin Hv; try rewrite Htrace in Hin; in_trace Hin;
      try (inversion Hev; subst; congruence).
    all: inversion Hev; subst; clear Hev.
    all: eexists; simpl_state; try rewrite Htrace; simpl_state; find_consecutive.
  - intros vv vf.
    run_ready HU HA; simpl_state; try rewrite Htrace; simpl_state;
      intros Hsv Hvv Hsf Hvf; cbn in Hsv, Hsf;
      try (rewrite after_create_quiet in Hsv by assumption; cbn in Hsv);
      try (rewrite after_create_quiet in Hsf by assumption; cbn in Hsf);
      try discriminate Hsv; try discriminate Hsf;
      try (inversion Hsv; inversion Hsf; subst; congruence).
    all: do 2 eexists; find_in.
Qed.

(** C1. For a constructed object whose two sources are fetched and for
    which no status query of the run reports failure, [ready()] resolves,
    and afterwards each parameter map holds exactly the (name, location)
    entries the context reports for the indices 0 to count - 1 of its
    class, with no name twice; when the names the context reports are
    pairwise distinct, the map is the list of these entries, one per index
    and in the order of the indices. *)
Theorem ready_resolves_with_active_parameters (args : Args) (st0 : State c unit)
  (inst : Instance c) (net : Net.Network) (g : WebGL.GL c)
  (rv rf : Net.Response) :
  fst (constructor c args st0) = Ok inst ->
  Net.fetch net (_path inst ++ _name inst ++ ".vert") = Net.Responded rv ->
  Net.fetch net (_path inst ++ _name inst ++ ".frag") = Net.Responded rf ->
  let r := ready net {| gl := g; trace := []; this := inst |} in
  (forall ev, In ev (trace (snd r)) -> reports_failure ev = false) ->
  fst r = Fulfilled (VArray [VUndefined; VUndefined])
  /\ exists p U A,
      _program (this (snd r)) = Some p
      /\ get ACTIVE_UNIFORMS (_parameters (this (snd r))) = Some U
      /\ get ACTIVE_ATTRIBUTES (_parameters (this (snd r))) = Some A
      /\ NoDup (keys U)
      /\ NoDup (keys A)
      /\ (forall k v, In (k, v) U <-> In (k, v) (active_uniforms (gl (snd r)) p))
      /\ (forall k v, In (k, v) A <-> In (k, v) (active_attributes (gl (snd r)) p))
      /\ (NoDup (map fst (active_uniforms (gl (snd r)) p)) ->
          U = active_uniforms (gl (snd r)) p)
      /\ (NoDup (map fst (active_attributes (gl (snd r)) p)) ->
          A = active_attributes (gl (snd r)) p).
Proof.
  intros Hc HfV HfF.
  destruct (constructor_ok c args st0 inst Hc) as (Hp & Hs & Hpar0 & Hn & Hne).
  assert (HU : get ACTIVE_UNIFORMS (_parameters inst) = Some []) by now rewrite Hpar0.
  assert (HA : get ACTIVE_ATTRIBUTES (_parameters inst) = Some []) by now rewrite Hpar0.
  intros r. subst r.
  run_ready HU HA; intros Hok; try congruence.
  all: try (apply no_failure_forallb in Hok; cbn in Hok;
            repeat match goal with
                   | Hf : truthy _ = false |- _ => rewrite Hf in Hok
                   | Ht : truthy _ = true |- _ => rewrite Ht in Hok
                   end;
            cbn in Hok; discriminate Hok).
  all: split; [reflexivity|].
  all: destruct Hsame as (_ & _ & Hprog & _).
  all: rewrite Hprog, Hpar, Hpar0, Hgl.
  all: match goal with
       | Hgl : gl _ = ?gf |- _ =>
           destruct (set_all_empty (WebGL.getUniformLocation c gf p)
                       (active_uniforms gf p)) as (NDU & HinU);
           [intros k v; apply reported_functional|];
           destruct (set_all_empty (WebGL.getAttribLocation c gf p)
                       (active_attributes gf p)) as (NDA & HinA);
           [intros k v; apply reported_functional|];
           exists p, (set_all (active_uniforms gf p) empty),
             (set_all (active_attributes gf p) empty)
       end.
  all: repeat split; try assumption; try apply HinU; try apply HinA.
  all: intros ND; apply (set_all_fresh _ []); exact ND.
Qed.

(** C2 (amended). [ready()] leaves its promise settled.  When it is
    fulfilled, no error occurred, the value is the array of the two
    [undefined] results of [qualify] (not the program handle) and the
    linked and validated program is in the [_program] field.  When it is
    rejected, the reason is the first error of the run. *)
Theorem ready_settles_with_first_error (args : Args) (st0 : State c unit)
  (inst : Instance c) (net : Net.Network) (g : WebGL.GL c) :
  fst (constructor c args st0) = Ok inst ->
  let r := ready net {| gl := g; trace := []; this := inst |} in
  match fst r with
  | Pending => False
  | Fulfilled v =>
      v = VArray [VUndefined; VUndefined]
      /\ first_error (trace (snd r)) = None
      /\ exists p vl vv,
          _program (this (snd r)) = Some p
          /\ In (EvGetProgramParameter p LINK_STATUS vl) (trace (snd r))
          /\ truthy vl = true
          /\ In (EvGetProgramParameter p VALIDATE_STATUS vv) (trace (snd r))
          /\ truthy vv = true
  | Rejected e => first_error (trace (snd r)) = Some e
  end.
Proof.
  intros Hc.
  destruct (constructor_ok c args st0 inst Hc) as (Hp & Hs & Hpar0 & Hn & Hne).
  assert (HU : get ACTIVE_UNIFORMS (_parameters inst) = Some []) by now rewrite Hpar0.
  assert (HA : get ACTIVE_ATTRIBUTES (_parameters inst) = Some []) by now rewrite Hpar0.
  intros r. subst r.
  run_ready HU HA; simpl_state; try reflexivity.
  all: split; [reflexivity|].
  all: rewrite Htrace; split;
    [cbn [first_error raised]; now apply first_error_quiet|].
  all: destruct Hsame as (_ & _ & Hprog & _); rewrite Hprog.
  all: do 3 eexists; split; [reflexivity|].
  all: split; [find_in|]; split; [eassumption|]; split; [find_in|eassumption].
Qed.

(** C3 (amended). When the compile-status query of a stage reports
    failure, [ready()] rejects and no program is created; the error raised
    for that stage carries the info log the context gave for its shader,
    and it is the reason of the rejection when that stage settles first
    (in general the reason is the first error of the run). *)
Theorem compile_failure_rejects (args : Args) (st0 : State c unit)
  (inst : Instance c) (net : Net.Network) (g : WebGL.GL c)
  (type : GLenum) (v : GLany) :
  fst (constructor c args st0) = Ok inst ->
  let r := ready net {| gl := g; trace := []; this := inst |} in
  compile_status_of type (trace (snd r)) = Some v ->
  truthy v = false ->
  exists e log,
    fst r = Rejected e
    /\ first_error (trace (snd r)) = Some e
    /\ compile_log_of type (trace (snd r)) = Some log
    /\ In (EvThrow (Error ("Error compiling shader: " ++ log))) (trace (snd r))
    /\ (Net.first (Net.order net) = type ->
        e = Error ("Error compiling shader: " ++ log))
    /\ _program (this (snd r)) = None
    /\ (forall ev, In ev (trace (snd r)) -> links ev = false).
Proof.
  intros Hc.
  destruct (constructor_ok c args st0 inst Hc) as (Hp & Hs & Hpar0 & Hn & Hne).
  assert (HU : get ACTIVE_UNIFORMS (_parameters inst) = Some []) by now rewrite Hpar0.
  assert (HA : get ACTIVE_ATTRIBUTES (_parameters inst) = Some []) by now rewrite Hpar0.
  intros r. subst r.
  run_ready HU HA; simpl_state; try rewrite Htrace; intros Hst Hv;
    destruct type; cbn in Hst;
    try (rewrite after_create_quiet in Hst by assumption; cbn in Hst);
    try discriminate Hst; inversion Hst; subst; try congruence.
  all: do 2 eexists; split; [reflexivity|]; split; [reflexivity|].
  all: split; [reflexivity|]; split; [find_in|].
  all: cbn [Net.first]; split; [try discriminate; reflexivity|].
  all: split; [exact Hp|].
  all: intros ev Hin; in_trace Hin; subst ev; reflexivity.
Qed.

(** C5 (amended). When the fetch of a shader source is rejected,
    [ready()] rejects, no program is created and the [_program] field
    stays undefined; the reason of the rejection is the first error of the
    run, which is the cause of the failed fetch itself, as the network gave
    it, when that stage settles first. *)
Theorem fetch_failure_rejects (args : Args) (st0 : State c unit)
  (inst : Instance c) (net : Net.Network) (g : WebGL.GL c)
  (type : GLenum) (cause : JsError) :
  fst (constructor c args st0) = Ok inst ->
  type = VERTEX_SHADER \/ type = FRAGMENT_SHADER ->
  Net.fetch net (_path inst ++ _name inst ++ toString (get type SHADER_EXTENSIONS))
  = Net.NetworkError cause ->
  let r := ready net {| gl := g; trace := []; this := inst |} in
  exists e,
    fst r = Rejected e
    /\ first_error (trace (snd r)) = Some e
    /\ In (EvFetchRejected
             (_path inst ++ _name inst ++ toString (get type SHADER_EXTENSIONS)) cause)
         (trace (snd r))
    /\ (Net.first (Net.order net) = type -> e = cause)
    /\ _program (this (snd r)) = None
    /\ (forall ev, In ev (trace (snd r)) -> links ev = false).
Proof.
  intros Hc Hty Hf.
  destruct (constructor_ok c args st0 inst Hc) as (Hp & Hs & Hpar0 & Hn & Hne).
  assert (HU : get ACTIVE_UNIFORMS (_parameters inst) = Some []) by now rewrite Hpar0.
  assert (HA : get ACTIVE_ATTRIBUTES (_parameters inst) = Some []) by now rewrite Hpar0.
  intros r. subst r.
  destruct Hty; subst type;
    change (toString (get VERTEX_SHADER SHADER_EXTENSIONS)) with ".vert" in *;
    change (toString (get FRAGMENT_SHADER SHADER_EXTENSIONS)) with ".frag" in *.
  all: run_ready HU HA; simpl_state; try congruence.
  all: eexists; split; [reflexivity|]; split; [reflexivity|].
  all: split;
    [first
       [ find_in
       | match goal with
         | H1 : Net.fetch _ ?f = Net.NetworkError ?c1
           |- In (EvFetchRejected ?f ?c2) _ =>
             replace c2 with c1 by congruence; find_in
         end ]|].
  all: cbn [Net.first]; split; [try discriminate; intros _; congruence|].
  all: split; [exact Hp|].
  all: intros ev Hin; in_trace Hin; subst ev; reflexivity.
Qed.


End Claims.

End ProgramClaims.

(** ** The claim about introspection run twice *)

Module IntrospectionClaims.

Import Program JsMap JsMapFacts ProgramFacts.

Local Arguments String.append : simpl never.

Section Claims.

Variable c : WebGL.Context.

Local Abbreviation St := (State c (Instance c)).

(** On such an object the loop stops in its first turn, before any write. *)
Lemma for_qualify_unfit (parameter : GLenum) (pf af lf : string) (count : nat)
  (idx : Z) (st : St) :
  unfit parameter af lf st ->
  gl (snd (for_ count idx (qualify_step parameter pf af lf) st)) = gl st
  /\ this (snd (for_ count idx (qualify_step parameter pf af lf) st)) = this st.
Proof.
  intros Hbad. destruct count as [|count]; [split; reflexivity|].
  simpl for_.
  cbv [bind qualify_step the_program read_this ret throw gl_get write_this dl
       emit emit_].
  cbn [gl trace this].
  destruct (_program (this st)) eqn:Hp; cbn [gl trace this fst snd];
    [|split; reflexivity].
  destruct (WebGL.getActive_method c af) eqn:Ha; cbn [gl trace this fst snd];
    [|split; reflexivity].
  rewrite Hp.
  destruct (WebGL.getLocation_method c lf) eqn:Hl; cbn [gl trace this fst snd];
    [|split; reflexivity].
  destruct (get parameter (_parameters (this st))) eqn:Hm;
    cbn [gl trace this fst snd]; [|split; reflexivity].
  destruct Hbad as [H|[H|[H|H]]]; congruence.
Qed.

Lemma qualify_unfit (parameter : GLenum) (st : St) :
  unfit parameter
    ("getActive" ++ toString (get parameter QUALIFYING_FUNCTION))
    ("get" ++ toString (get parameter QUALIFYING_FUNCTION) ++ "Location") st ->
  gl (snd (qualify parameter st)) = gl st
  /\ this (snd (qualify parameter st)) = this st.
Proof.
  intros Hbad.
  cbv [qualify bind dl emit emit_ the_program read_this ret throw gl_get].
  cbn [gl trace this].
  destruct (_program (this st)) eqn:Hp; cbn [gl trace this fst snd];
    [|split; reflexivity].
  match goal with
  | |- context [for_ ?n ?i (qualify_step _ ?pf ?af ?lf) ?s] =>
      destruct (for_qualify_unfit parameter pf af lf n i s) as (Hgl & Hthis)
  end.
  { destruct Hbad as [H|[H|[H|H]]]; [congruence|right; left; exact H
                                     |right; right; left; exact H
                                     |right; right; right; exact H]. }
  destruct (for_ _ _ _ _) as [[[]|e] st']; cbn [fst snd] in *; split; assumption.
Qed.

Lemma instance_eq (i j : Instance c) :
  same_but_parameters i j -> _parameters j = _parameters i -> j = i.
Proof.
  destruct i, j. unfold same_but_parameters. cbn. intros (-> & -> & -> & ->) ->.
  reflexivity.
Qed.

(** C9. Running [qualify] for a parameter class a second time, the context
    reporting the same, leaves the object (its parameter maps included) and
    the driver exactly as the first run left them. *)
Theorem qualify_twice (parameter : GLenum) (st : St) :
  let st1 := snd (qualify parameter st) in
  let st2 := snd (qualify parameter st1) in
  _parameters (this st2) = _parameters (this st1)
  /\ this st2 = this st1
  /\ gl st2 = gl st1.
Proof.
  intros st1 st2.
  assert (Hgoal : gl st2 = gl st1 /\ this st2 = this st1);
    [|destruct Hgoal as (E2 & E1); rewrite E1; auto].
  subst st2 st1.
  destruct (_program (this st)) as [p|] eqn:Hp.
  2:{ destruct (qualify_unfit parameter st) as (Hgl & Hthis); [left; exact Hp|].
      apply qualify_unfit. left. now rewrite Hthis. }
  destruct (WebGL.getActive_method c
              ("getActive" ++ toString (get parameter QUALIFYING_FUNCTION)))
    as [a|] eqn:Ha.
  2:{ apply qualify_unfit. right. left. exact Ha. }
  destruct (WebGL.getLocation_method c
              ("get" ++ toString (get parameter QUALIFYING_FUNCTION) ++ "Location"))
    as [l|] eqn:Hl.
  2:{ apply qualify_unfit. right. right. left. exact Hl. }
  destruct (get parameter (_parameters (this st))) as [m|] eqn:Hm.
  2:{ destruct (qualify_unfit parameter st) as (Hgl & Hthis);
        [right; right; right; exact Hm|].
      apply qualify_unfit. right. right. right. now rewrite Hthis. }
  destruct (qualify_ok c parameter st p a l m Ha Hl Hp Hm)
    as (st1 & Hrun1 & Hgl1 & _ & Hsame1 & Hpar1).
  rewrite Hrun1. cbn [snd].
  assert (Hp1 : _program (this st1) = Some p).
  { destruct Hsame1 as (_ & _ & E & _). now rewrite E. }
  assert (Hm1 : get parameter (_parameters (this st1))
                = Some (set_all (reported a l parameter (gl st) p) m)).
  { rewrite Hpar1. apply get_set_same. }
  destruct (qualify_ok c parameter st1 p a l _ Ha Hl Hp1 Hm1)
    as (st2 & Hrun2 & Hgl2 & _ & Hsame2 & Hpar2).
  rewrite Hrun2. cbn [snd]. split; [exact Hgl2|].
  apply instance_eq; [exact Hsame2|].
  rewrite Hpar2, Hgl1.
  rewrite (set_all_twice (l (gl st) p))
    by (intros k v; apply reported_functional).
  rewrite Hpar1, set_set. reflexivity.
Qed.

End Claims.

End IntrospectionClaims.

(** ** The claims about construction *)

Module ConstructionClaims.

Import Program JsString JsStringFacts.

Local Arguments String.append : simpl never.

Section Claims.

Variable c : WebGL.Context.

(** C7. With an empty or absent name the constructor throws, at once and
    as an exception of the call itself, the error that asks for a name;
    and whatever its arguments, construction leaves the driver untouched
    and adds no entry to the trace but the exception it may raise: no
    debug line, no fetch, no context call. *)
Theorem constructor_requires_name :
  (forall (args : Args) (st0 : State c unit),
      name args = None \/ name args = Some EmptyString ->
      constructor c args st0
      = (Throw (Error "Name required in order to create a program."),
         emit_ (EvThrow (Error "Name required in order to create a program.")) st0))
  /\ (forall (args : Args) (st0 : State c unit),
         match fst (constructor c args st0) with
         | Ok _ => snd (constructor c args st0) = st0
         | Throw e => snd (constructor c args st0) = emit_ (EvThrow e) st0
         end).
Proof.
  split.
  - intros args st0 [H|H]; unfold constructor; rewrite H; reflexivity.
  - intros args st0. unfold constructor.
    destruct (name args) as [[|ch n]|]; reflexivity.
Qed.

(** C8. For a base path P and a non-empty name N the constructor succeeds
    and the two sources are requested at B N/N.vert and B N/N.frag, where
    B is P when P ends with the separator and P followed by the separator
    otherwise; constructing with B gives the same object; and an omitted
    path stands for the default path. *)
Theorem shader_file_location (P N : string) (st0 : State c unit) :
  N <> EmptyString ->
  exists inst base,
    constructor c {| name := Some N; path := Some P |} st0 = (Ok inst, st0)
    /\ ((exists Q, P = Q ++ "/") -> base = P)
    /\ ((forall Q, P <> Q ++ "/") -> base = P ++ "/")
    /\ (forall st,
           this st = inst ->
           fst (createShader VERTEX_SHADER st) = base ++ N ++ "/" ++ N ++ ".vert"
           /\ fst (createShader FRAGMENT_SHADER st) = base ++ N ++ "/" ++ N ++ ".frag")
    /\ constructor c {| name := Some N; path := Some base |} st0 = (Ok inst, st0)
    /\ constructor c {| name := Some N; path := None |} st0
       = constructor c {| name := Some N; path := Some DEFAULT_SHADER_PATH |} st0.
Proof.
  intros HN.
  exists {| _name := N;
            _shaders := JsMap.empty;
            _program := None;
            _parameters :=
              JsMap.set ACTIVE_ATTRIBUTES JsMap.empty
                (JsMap.set ACTIVE_UNIFORMS JsMap.empty JsMap.empty);
            _path := (if negb (endsWith P "/") then P ++ "/" else P) ++ N ++ "/" |}.
  exists (if negb (endsWith P "/") then P ++ "/" else P).
  split; [|split; [|split; [|split; [|split]]]].
  - unfold constructor. cbn [name path]. destruct N; [congruence|reflexivity].
  - intros HQ. apply endsWith_spec in HQ. now rewrite HQ.
  - intros HQ. apply endsWith_false in HQ. now rewrite HQ.
  - intros st Hst. unfold createShader. cbn [fst]. rewrite Hst. cbn [_path _name].
    change (toString (JsMap.get VERTEX_SHADER SHADER_EXTENSIONS)) with ".vert".
    change (toString (JsMap.get FRAGMENT_SHADER SHADER_EXTENSIONS)) with ".frag".
    rewrite !append_assoc. split; reflexivity.
  - unfold constructor. cbn [name path].
    assert (E : endsWith (if negb (endsWith P "/") then P ++ "/" else P) "/" = true).
    { destruct (endsWith P "/") eqn:E; cbn [negb]; [exact E|].
      apply endsWith_spec. now exists P. }
    rewrite E. cbn [negb]. destruct N; [congruence|reflexivity].
  - reflexivity.
Qed.

End Claims.

End ConstructionClaims.

(** ** The claim about the vector utility *)

Module Vec3Claims.

(** C10. What the code does where the claim expects a copy and a clone:
    in a page that binds neither [v] nor [v3], [copy] raises a
    ReferenceError and leaves the receiver as it was, whatever the
    argument, and [clone] raises a ReferenceError; in any page, what
    [copy] does never depends on its argument and [clone] never returns a
    vector. *)
Theorem copy_and_clone_raise (number : Type) (a b : Vec3.t number) :
  Vec3.copy Vec3.no_globals a b = (Throw (ReferenceError "v is not defined"), a)
  /\ Vec3.clone Vec3.no_globals a = (Throw (ReferenceError "v3 is not defined"), a)
  /\ (forall globals b', Vec3.copy globals a b = Vec3.copy globals a b')
  /\ (forall globals r, fst (Vec3.clone globals a) <> Ok r).
Proof.
  repeat split.
  intros globals r. unfold Vec3.clone. destruct (globals "v3"); discriminate.
Qed.

(** The same at the vectors (1, 2, 3) and (4, 5, 6). *)
Example copy_and_clone_at_1_2_3 :
  let a := Vec3.Build_t 1%Z 2%Z 3%Z in
  let b := Vec3.Build_t 4%Z 5%Z 6%Z in
  Vec3.copy Vec3.no_globals a b = (Throw (ReferenceError "v is not defined"), a)
  /\ Vec3.clone Vec3.no_globals a = (Throw (ReferenceError "v3 is not defined"), a).
Proof. split; reflexivity. Qed.

End Vec3Claims.

(** ** The claims on the small driver *)

Module Runs.

Import Program Toy.

Local Abbreviation ctx := (Toy.context true true).

Local Abbreviation st0 :=
  (Build_State (c := Toy.context true true) (T := unit) Toy.driver0 [] tt).

Lemma basic_constructed (l v : bool) (s : State (Toy.context l v) unit) :
  fst (constructor (Toy.context l v) Toy.basic_args s) = Ok (Toy.basic (Toy.context l v)).
Proof. reflexivity. Qed.

Lemma In_forallb {A : Type} (f : A -> bool) (l : list A) :
  forallb (fun x => negb (f x)) l = true -> forall x, In x l -> f x = false.
Proof.
  intros H x Hin. rewrite forallb_forall in H. specialize (H x Hin).
  now destruct (f x).
Qed.

(** C1 on the small driver with two good sources. *)
Lemma ready_resolves_with_active_parameters_witness :
  fst (ready good_net (Toy.start true true))
  = Fulfilled (VArray [VUndefined; VUndefined]).
Proof.
  refine (proj1 (ProgramClaims.ready_resolves_with_active_parameters ctx
                   Toy.basic_args st0 (Toy.basic ctx) good_net Toy.driver0
                   {| Net.status := 200; Net.text := Toy.main_source |}
                   {| Net.status := 200; Net.text := Toy.main_source |}
                   _ _ _ _)).
  - reflexivity.
  - reflexivity.
  - reflexivity.
  - apply In_forallb. vm_compute. reflexivity.
Defined.

(** C2 as stated fails: the run succeeds, the program handle is 3, and the
    promise is fulfilled with the array of two [undefined], not with the
    handle. *)
Lemma ready_value_is_not_the_program_handle :
  let r := ready good_net (Toy.start true true) in
  fst (constructor ctx Toy.basic_args st0) = Ok (this (Toy.start true true))
  /\ first_error (trace (snd r)) = None
  /\ _program (this (snd r)) = Some 3%Z
  /\ fst r = Fulfilled (VArray [VUndefined; VUndefined])
  /\ fst r <> Fulfilled (VProgram (3%Z : WebGL.WebGLProgram ctx)).
Proof.
  vm_compute. repeat split; try reflexivity. intros H. discriminate H.
Qed.

(** C2 (amended) on the same run. *)
Lemma ready_settles_with_first_error_witness :
  match fst (ready good_net (Toy.start true true)) with
  | Pending => False
  | Fulfilled v =>
      v = VArray [VUndefined; VUndefined]
      /\ first_error (trace (snd (ready good_net (Toy.start true true)))) = None
      /\ exists p vl vv,
          _program (this (snd (ready good_net (Toy.start true true)))) = Some p
          /\ In (EvGetProgramParameter p LINK_STATUS vl)
               (trace (snd (ready good_net (Toy.start true true))))
          /\ truthy vl = true
          /\ In (EvGetProgramParameter p VALIDATE_STATUS vv)
               (trace (snd (ready good_net (Toy.start true true))))
          /\ truthy vv = true
  | Rejected e =>
      first_error (trace (snd (ready good_net (Toy.start true true)))) = Some e
  end.
Proof.
  refine (ProgramClaims.ready_settles_with_first_error ctx Toy.basic_args st0
            (Toy.basic ctx) good_net Toy.driver0 _).
  reflexivity.
Defined.

(** C3 as stated fails: both sources are rejected by the compiler and the
    fragment chain settles first; the compile-status query of the vertex
    stage reports failure, with its own info log, yet [ready()] rejects
    with the error that carries the log of the fragment shader. *)
Lemma later_compile_failure_is_not_the_reason :
  let r := ready both_bad_net (Toy.start true true) in
  compile_status_of VERTEX_SHADER (trace (snd r)) = Some (GLboolean false)
  /\ compile_log_of VERTEX_SHADER (trace (snd r)) = Some "ERROR: 0:1: #error vertex"
  /\ fst r = Rejected (Error "Error compiling shader: ERROR: 0:1: #error fragment")
  /\ fst r <> Rejected (Error "Error compiling shader: ERROR: 0:1: #error vertex").
Proof.
  vm_compute. repeat split; try reflexivity. intros H. discriminate H.
Qed.

(** C3 (amended) on that run, for the vertex stage. *)
Lemma compile_failure_rejects_witness :
  exists e log,
    fst (ready both_bad_net (Toy.start true true)) = Rejected e
    /\ first_error (trace (snd (ready both_bad_net (Toy.start true true)))) = Some e
    /\ compile_log_of VERTEX_SHADER
         (trace (snd (ready both_bad_net (Toy.start true true)))) = Some log
    /\ In (EvThrow (Error ("Error compiling shader: " ++ log)))
         (trace (snd (ready both_bad_net (Toy.start true true))))
    /\ (Net.first (Net.order both_bad_net) = VERTEX_SHADER ->
        e = Error ("Error compiling shader: " ++ log))
    /\ _program (this (snd (ready both_bad_net (Toy.start true true)))) = None
    /\ (forall ev,
           In ev (trace (snd (ready both_bad_net (Toy.start true true)))) ->
           links ev = false).
Proof.
  refine (ProgramClaims.compile_failure_rejects ctx Toy.basic_args st0
            (Toy.basic ctx) both_bad_net Toy.driver0 VERTEX_SHADER (GLboolean false)
            _ _ _).
  - reflexivity.
  - vm_compute. reflexivity.
  - reflexivity.
Defined.

Local Abbreviation link_fails_start := (Toy.start false true).

Local Abbreviation validate_fails_start := (Toy.start true false).

(** C4 on the driver that refuses to link, and on the driver that links
    and refuses to validate: there the link-status answer [true] is
    followed by [validateProgram] and the validate-status query, and
    [ready()] rejects with the validation error. *)
Lemma link_failure_rejects_witness :
  (fst (ready good_net link_fails_start)
   = Rejected (Error ("Unable to ling program " ++ JsString.dquote ++ "basic"
                      ++ JsString.dquote))
   /\ (forall ev, In ev (trace (snd (ready good_net link_fails_start))) ->
                  validates ev = false)
   /\ (forall ev, In ev (trace (snd (ready good_net link_fails_start))) ->
                  introspects ev = false)
   /\ JsMap.get ACTIVE_UNIFORMS
        (_parameters (this (snd (ready good_net link_fails_start))))
      = Some JsMap.empty
   /\ JsMap.get ACTIVE_ATTRIBUTES
        (_parameters (this (snd (ready good_net link_fails_start))))
      = Some JsMap.empty)
  /\ (exists vv,
         consecutive (c := Toy.context true false)
           [EvGetProgramParameter (c := Toy.context true false) 3%Z
              LINK_STATUS (GLboolean true);
            EvValidateProgram (c := Toy.context true false) 3%Z;
            EvGetProgramParameter (c := Toy.context true false) 3%Z
              VALIDATE_STATUS vv]
           (trace (snd (ready good_net validate_fails_start))))
  /\ fst (ready good_net validate_fails_start)
     = Rejected (Error ("Unable to validate program " ++ JsString.dquote ++ "basic"
                        ++ JsString.dquote)).
Proof.
  split; [|split].
  - destruct (proj1 (ProgramClaims.link_failure_rejects (Toy.context false true)
                       Toy.basic_args
                       (Build_State (c := Toy.context false true) (T := unit)
                          Toy.driver0 [] tt)
                       (Toy.basic (Toy.context false true)) good_net Toy.driver0
                       eq_refl)
                3%Z (GLboolean false))
      as (H1 & _ & H2 & H3 & H4 & H5).
    + apply (nth_error_In _ 21). vm_compute. reflexivity.
    + reflexivity.
    + exact (conj H1 (conj H2 (conj H3 (conj H4 H5)))).
  - refine (proj1 (proj2 (proj2 (proj2
              (ProgramClaims.link_failure_rejects (Toy.context true false)
                 Toy.basic_args
                 (Build_State (c := Toy.context true false) (T := unit)
                    Toy.driver0 [] tt)
                 (Toy.basic (Toy.context true false)) good_net Toy.driver0
                 eq_refl)))) 3%Z (GLboolean true) _ _).
    + apply (nth_error_In _ 21). vm_compute. reflexivity.
    + reflexivity.
  - refine (proj1 (proj2 (proj2
              (ProgramClaims.link_failure_rejects (Toy.context true false)
                 Toy.basic_args
                 (Build_State (c := Toy.context true false) (T := unit)
                    Toy.driver0 [] tt)
                 (Toy.basic (Toy.context true false)) good_net Toy.driver0
                 eq_refl))) 3%Z (GLboolean false) _ _).
    + apply (nth_error_In _ 23). vm_compute. reflexivity.
    + reflexivity.
Defined.

(** C5 as stated fails: when the vertex source is not found (status 404)
    the body the server sent is compiled like any source, so [ready()]
    rejects with a compile error or, if the driver accepts the body, is
    fulfilled with a program in place; and when the fetch is rejected, the
    reason of the rejection is the bare cause. *)
Lemma not_found_source_is_compiled :
  Net.fetch not_found_net "/shaders/basic/basic.vert" = Toy.not_found
  /\ Net.fetch not_found_fallback_net "/shaders/basic/basic.vert"
     = Toy.not_found_fallback
  /\ fst (createShader VERTEX_SHADER (Toy.start true true)) = "/shaders/basic/basic.vert"
  /\ fst (ready not_found_net (Toy.start true true))
     = Rejected (Error "Error compiling shader: ERROR: 0:1: Not Found")
  /\ fst (ready not_found_fallback_net (Toy.start true true))
     = Fulfilled (VArray [VUndefined; VUndefined])
  /\ _program (this (snd (ready not_found_fallback_net (Toy.start true true))))
     = Some 3%Z
  /\ fst (ready failed_net (Toy.start true true))
     = Rejected (TypeError "Failed to fetch").
Proof. vm_compute. repeat split; reflexivity. Qed.

(** C5 (amended) on the run whose vertex fetch is rejected. *)
Lemma fetch_failure_rejects_witness :
  exists e,
    fst (ready failed_net (Toy.start true true)) = Rejected e
    /\ first_error (trace (snd (ready failed_net (Toy.start true true)))) = Some e
    /\ In (EvFetchRejected
             (_path (Toy.basic ctx) ++ _name (Toy.basic ctx)
              ++ toString (JsMap.get VERTEX_SHADER SHADER_EXTENSIONS))
             (TypeError "Failed to fetch"))
         (trace (snd (ready failed_net (Toy.start true true))))
    /\ (Net.first (Net.order failed_net) = VERTEX_SHADER ->
        e = TypeError "Failed to fetch")
    /\ _program (this (snd (ready failed_net (Toy.start true true)))) = None
    /\ (forall ev,
           In ev (trace (snd (ready failed_net (Toy.start true true)))) ->
           links ev = false).
Proof.
  refine (ProgramClaims.fetch_failure_rejects ctx Toy.basic_args st0 (Toy.basic ctx)
            failed_net Toy.driver0 VERTEX_SHADER (TypeError "Failed to fetch")
            _ _ _).
  - reflexivity.
  - left. reflexivity.
  - vm_compute. reflexivity.
Defined.



(** C7 on a call without a name. *)
Lemma constructor_requires_name_witness :
  constructor ctx {| name := None; path := Some "/shaders" |} st0
  = (Throw (Error "Name required in order to create a program."),
     emit_ (EvThrow (Error "Name required in order to create a program.")) st0).
Proof.
  exact (proj1 (ConstructionClaims.constructor_requires_name ctx)
           {| name := None; path := Some "/shaders" |} st0 (or_introl eq_refl)).
Defined.

(** C8 on the paths [/shaders] and [/shaders/] with the name [basic]. *)
Lemma shader_file_location_witness :
  exists inst,
    constructor ctx {| name := Some "basic"; path := Some "/shaders" |} st0
    = (Ok inst, st0)
    /\ constructor ctx {| name := Some "basic"; path := Some "/shaders/" |} st0
       = (Ok inst, st0)
    /\ forall st, this st = inst ->
                  fst (createShader VERTEX_SHADER st) = "/shaders/basic/basic.vert"
                  /\ fst (createShader FRAGMENT_SHADER st) = "/shaders/basic/basic.frag".
Proof.
  destruct (ConstructionClaims.shader_file_location ctx "/shaders" "basic" st0)
    as (inst & base & H1 & H2 & H3 & H4 & H5 & H6).
  - discriminate.
  - assert (E : base = "/shaders/").
    { apply H3. apply JsStringFacts.endsWith_false. reflexivity. }
    subst base. exists inst. split; [exact H1|]. split; [exact H5|].
    exact H4.
Defined.

End Runs.

(** * Further properties of the loader and of the vector utility *)

Module ProgramExtras.

Import Program JsMap JsMapFacts ProgramFacts.

Local Arguments String.append : simpl never.

Section Extras.

Variable c : WebGL.Context.

Local Abbreviation St := (State c (Instance c)).

Lemma quiet_not_attaches (evs : list (Event c)) :
  Forall (fun ev => quiet ev = true) evs -> filter attaches evs = [].
Proof.
  induction 1 as [|ev evs Hq _ IH]; [reflexivity|].
  destruct ev; cbn in Hq; try discriminate Hq; exact IH.
Qed.

Lemma quiet_not_requests (evs : list (Event c)) :
  Forall (fun ev => quiet ev = true) evs ->
  forallb (fun ev => negb (requests ev)) evs = true.
Proof.
  induction 1 as [|ev evs Hq _ IH]; [reflexivity|].
  destruct ev; cbn in Hq; try discriminate Hq; exact IH.
Qed.

(** X1. Whatever the order in which the two sources arrive, a program
    that [ready()] creates gets exactly two shaders attached: first the
    one recorded for the vertex stage, then the one recorded for the
    fragment stage; it is the program the object holds afterwards. *)
Theorem shaders_attached_in_array_order (inst : Instance c) (net : Net.Network)
  (g : WebGL.GL c) mU mA (p : WebGL.WebGLProgram c) :
  get ACTIVE_UNIFORMS (_parameters inst) = Some mU ->
  get ACTIVE_ATTRIBUTES (_parameters inst) = Some mA ->
  let r := ready net {| gl := g; trace := []; this := inst |} in
  In (EvCreateProgram p) (trace (snd r)) ->
  exists sv sf,
    filter attaches (trace (snd r)) = [EvAttachShader p sv; EvAttachShader p sf]
    /\ get VERTEX_SHADER (_shaders (this (snd r))) = Some sv
    /\ get FRAGMENT_SHADER (_shaders (this (snd r))) = Some sf
    /\ _program (this (snd r)) = Some p.
Proof.
  intros HU HA r. subst r.
  run_ready HU HA; intros Hin; try rewrite Htrace in Hin; in_trace Hin.
  all: inversion Hev; subst; clear Hev.
  all: try (destruct Hsame as (_ & Hsh & Hpr & _); rewrite Hsh, Hpr, Htrace).
  all: do 2 eexists; simpl_state; cbn [filter attaches];
    try rewrite quiet_not_attaches by assumption.
  all: split; [reflexivity|].
  all: split; [|split];
    repeat first [rewrite get_set_same | rewrite get_set_other by discriminate];
    reflexivity.
Qed.

(** X2. [ready()] issues its two requests, for the vertex source and then
    for the fragment source, before anything else happens, and never
    issues another request, whatever the outcome. *)
Theorem both_requests_first (inst : Instance c) (net : Net.Network)
  (g : WebGL.GL c) mU mA :
  get ACTIVE_UNIFORMS (_parameters inst) = Some mU ->
  get ACTIVE_ATTRIBUTES (_parameters inst) = Some mA ->
  let r := ready net {| gl := g; trace := []; this := inst |} in
  exists rest,
    trace (snd r)
    = (EvLog ("Loading : " ++ _path inst ++ _name inst ++ ".vert")
       :: EvFetch (_path inst ++ _name inst ++ ".vert")
       :: EvLog ("Loading : " ++ _path inst ++ _name inst ++ ".frag")
       :: EvFetch (_path inst ++ _name inst ++ ".frag")
       :: rest)
    /\ forallb (fun ev => negb (requests ev)) rest = true.
Proof.
  intros HU HA r. subst r.
  run_ready HU HA; simpl_state; try rewrite Htrace.
  all: eexists; split; [reflexivity|].
  all: cbn [forallb requests negb andb]; try reflexivity.
  all: now apply quiet_not_requests.
Qed.

(** X3. After [ready()] on a constructed object, [_shaders] has an entry
    for a stage exactly when the compile-status query of that stage
    reported success, whatever happened to the other stage and whether
    [ready()] was fulfilled or rejected; the entry is the handle created
    for that stage. *)
Theorem shaders_hold_the_compiled_stages (args : Args) (st0 : State c unit)
  (inst : Instance c) (net : Net.Network) (g : WebGL.GL c) (type : GLenum) :
  fst (constructor c args st0) = Ok inst ->
  let r := ready net {| gl := g; trace := []; this := inst |} in
  (forall sh,
      get type (_shaders (this (snd r))) = Some sh ->
      In (EvCreateShader type sh) (trace (snd r))
      /\ exists v, compile_status_of type (trace (snd r)) = Some v /\ truthy v = true)
  /\ (forall v,
         compile_status_of type (trace (snd r)) = Some v ->
         truthy v = true ->
         exists sh, get type (_shaders (this (snd r))) = Some sh).
Proof.
  intros Hc.
  destruct (constructor_ok c args st0 inst Hc) as (Hp & Hs & Hpar0 & Hn & Hne).
  assert (HU : get ACTIVE_UNIFORMS (_parameters inst) = Some []) by now rewrite Hpar0.
  assert (HA : get ACTIVE_ATTRIBUTES (_parameters inst) = Some []) by now rewrite Hpar0.
  intros r. subst r.
  run_ready HU HA; simpl_state.
  all: try (destruct Hsame as (_ & Hsh & _); rewrite Hsh, Htrace).
  all: rewrite Hs.
  all: split;
    [ intros hx Hg; destruct type; cbn in Hg; try discriminate Hg;
      inversion Hg; subst; clear Hg;
      (split; [find_in|eexists; split; [cbn; reflexivity|assumption]])
    | intros vx Hst Hv; destruct type; cbn in Hst;
      try (rewrite after_create_quiet in Hst by assumption; cbn in Hst);
      try discriminate Hst; inversion Hst; subst; try congruence;
      cbn; eexists; reflexivity ].
Qed.

End Extras.

End ProgramExtras.

Module IntrospectionExtras.

Import Program JsMap JsMapFacts ProgramFacts.

Local Arguments String.append : simpl never.

Section Extras.

Variable c : WebGL.Context.

Local Abbreviation St := (State c (Instance c)).

Lemma get_set_all_other {K V : Type} `{EqDec K} (k : K) (entries : list (K * V)) :
  (forall v, ~ In (k, v) entries) ->
  forall m : JsMap.t K V, get k (set_all entries m) = get k m.
Proof.
  induction entries as [|[k' v'] entries IH]; intros Hn m; [reflexivity|].
  rewrite set_all_cons. cbn [fst snd]. rewrite IH.
  - apply get_set_other. intros E. subst k'. apply (Hn v'). now left.
  - intros v Hin. apply (Hn v). now right.
Qed.

Lemma get_set_all_some {K V : Type} `{EqDec K} (k : K) (entries : list (K * V)) :
  forall m : JsMap.t K V, get k m <> None -> get k (set_all entries m) <> None.
Proof.
  induction entries as [|[k' v'] entries IH]; intros m Hm; [exact Hm|].
  rewrite set_all_cons. apply IH. cbn [fst snd].
  destruct (eq_dec k k') as [E|N].
  - subst k'. rewrite get_set_same. discriminate.
  - now rewrite get_set_other.
Qed.

(** What [qualify] does to the world, in any state: either it writes
    nothing, or the object is fit and the map of the class has taken the
    entries the context reports. *)
Lemma qualify_effect (parameter : GLenum) (st : St) :
  gl (snd (qualify parameter st)) = gl st
  /\ same_but_parameters (this st) (this (snd (qualify parameter st)))
  /\ (this (snd (qualify parameter st)) = this st
      \/ exists p a l m,
          _program (this st) = Some p
          /\ WebGL.getActive_method c
               ("getActive" ++ toString (get parameter QUALIFYING_FUNCTION)) = Some a
          /\ WebGL.getLocation_method c
               ("get" ++ toString (get parameter QUALIFYING_FUNCTION) ++ "Location")
             = Some l
          /\ get parameter (_parameters (this st)) = Some m
          /\ fst (qualify parameter st) = Ok VUndefined
          /\ _parameters (this (snd (qualify parameter st)))
             = set parameter (set_all (reported a l parameter (gl st) p) m)
                 (_parameters (this st))).
Proof.
  assert (Hunfit : forall af lf, unfit parameter af lf st ->
            af = "getActive" ++ toString (get parameter QUALIFYING_FUNCTION) ->
            lf = "get" ++ toString (get parameter QUALIFYING_FUNCTION) ++ "Location" ->
            gl (snd (qualify parameter st)) = gl st
            /\ same_but_parameters (this st) (this (snd (qualify parameter st)))
            /\ (this (snd (qualify parameter st)) = this st \/ False)).
  { intros af lf Hu -> ->.
    destruct (IntrospectionClaims.qualify_unfit c parameter st Hu) as (Hg & Ht).
    rewrite Ht. split; [exact Hg|]. split; [|now left].
    unfold same_but_parameters. auto. }
  destruct (_program (this st)) as [p|] eqn:Hp.
  2:{ destruct (Hunfit _ _ (or_introl Hp) eq_refl eq_refl) as (H1 & H2 & [H3|[]]).
      auto. }
  destruct (WebGL.getActive_method c
              ("getActive" ++ toString (get parameter QUALIFYING_FUNCTION)))
    as [a|] eqn:Ha.
  2:{ destruct (Hunfit _ _ (or_intror (or_introl Ha)) eq_refl eq_refl)
        as (H1 & H2 & [H3|[]]). auto. }
  destruct (WebGL.getLocation_method c
              ("get" ++ toString (get parameter QUALIFYING_FUNCTION) ++ "Location"))
    as [l|] eqn:Hl.
  2:{ destruct (Hunfit _ _ (or_intror (or_intror (or_introl Hl))) eq_refl eq_refl)
        as (H1 & H2 & [H3|[]]). auto. }
  destruct (get parameter (_parameters (this st))) as [m|] eqn:Hm.
  2:{ destruct (Hunfit _ _ (or_intror (or_intror (or_intror Hm))) eq_refl eq_refl)
        as (H1 & H2 & [H3|[]]). auto. }
  destruct (qualify_ok c parameter st p a l m Ha Hl Hp Hm)
    as (st1 & Hrun & Hgl & _ & Hsame & Hpar).
  rewrite Hrun. cbn [fst snd]. split; [exact Hgl|]. split; [exact Hsame|].
  right. exists p, a, l, m. repeat split; try assumption; reflexivity.
Qed.

(** X4. In any state, with or without a program, [qualify] for one
    parameter class leaves the driver, every other field of the object and
    the map of every other class as they were. *)
Theorem qualify_touches_one_map (parameter other : GLenum) (st : St) :
  other <> parameter ->
  gl (snd (qualify parameter st)) = gl st
  /\ same_but_parameters (this st) (this (snd (qualify parameter st)))
  /\ get other (_parameters (this (snd (qualify parameter st))))
     = get other (_parameters (this st)).
Proof.
  intros Hne.
  destruct (qualify_effect parameter st)
    as (Hgl & Hsame & [Hthis|(p & a & l & m & _ & _ & _ & _ & _ & Hpar)]).
  - rewrite Hthis. split; [exact Hgl|].
    split; [unfold same_but_parameters; auto|reflexivity].
  - rewrite Hpar. split; [exact Hgl|]. split; [exact Hsame|].
    now apply get_set_other.
Qed.

(** X5. [qualify] only adds and overwrites: on an object with a program,
    a name the context reports ends up with the location the context gives
    for it, and every other name keeps the entry it had, so names of an
    earlier program that are no longer active stay in the map. *)
Theorem qualify_keeps_stale_names (st : St) (p : WebGL.WebGLProgram c)
  (m : JsMap.t string (WebGL.Location c)) :
  _program (this st) = Some p ->
  (get ACTIVE_UNIFORMS (_parameters (this st)) = Some m ->
   exists m',
     get ACTIVE_UNIFORMS (_parameters (this (snd (qualify ACTIVE_UNIFORMS st))))
     = Some m'
     /\ (forall n v, In (n, v) (active_uniforms (gl st) p) -> get n m' = Some v)
     /\ (forall n, (forall v, ~ In (n, v) (active_uniforms (gl st) p)) ->
                   get n m' = get n m))
  /\ (get ACTIVE_ATTRIBUTES (_parameters (this st)) = Some m ->
      exists m',
        get ACTIVE_ATTRIBUTES
          (_parameters (this (snd (qualify ACTIVE_ATTRIBUTES st)))) = Some m'
        /\ (forall n v, In (n, v) (active_attributes (gl st) p) -> get n m' = Some v)
        /\ (forall n, (forall v, ~ In (n, v) (active_attributes (gl st) p)) ->
                      get n m' = get n m)).
Proof.
  intros Hp. split; intros Hm.
  - destruct (qualify_ok c ACTIVE_UNIFORMS st p _ _ m eq_refl eq_refl Hp Hm)
      as (st1 & Hrun & _ & _ & _ & Hpar).
    rewrite Hrun. cbn [snd]. rewrite Hpar, get_set_same. eexists. split; [reflexivity|].
    split.
    + intros n v Hin.
      apply (get_set_all (WebGL.getUniformLocation c (gl st) p)); [|exact Hin].
      intros k w. apply reported_functional.
    + intros n Hn. now apply get_set_all_other.
  - destruct (qualify_ok c ACTIVE_ATTRIBUTES st p _ _ m eq_refl eq_refl Hp Hm)
      as (st1 & Hrun & _ & _ & _ & Hpar).
    rewrite Hrun. cbn [snd]. rewrite Hpar, get_set_same. eexists. split; [reflexivity|].
    split.
    + intros n v Hin.
      apply (get_set_all (WebGL.getAttribLocation c (gl st) p)); [|exact Hin].
      intros k w. apply reported_functional.
    + intros n Hn. now apply get_set_all_other.
Qed.

(** X6. [qualify] called with a constant that is not one of the two
    parameter classes finds no method name for it: it writes nothing, ends
    normally when the context answers a count of zero or less, and throws
    a TypeError in its first turn otherwise. *)
Theorem qualify_unknown_class (parameter : GLenum) (st : St)
  (p : WebGL.WebGLProgram c) :
  parameter <> ACTIVE_UNIFORMS ->
  parameter <> ACTIVE_ATTRIBUTES ->
  _program (this st) = Some p ->
  this (snd (qualify parameter st)) = this st
  /\ gl (snd (qualify parameter st)) = gl st
  /\ ((to_number (WebGL.getProgramParameter c (gl st) p parameter) <= 0)%Z ->
      fst (qualify parameter st) = Ok VUndefined)
  /\ ((0 < to_number (WebGL.getProgramParameter c (gl st) p parameter))%Z ->
      fst (qualify parameter st) = Throw (TypeError "c[a_func] is not a function")).
Proof.
  intros HU HA Hp.
  assert (Ha : WebGL.getActive_method c
                 ("getActive" ++ toString (get parameter QUALIFYING_FUNCTION)) = None).
  { destruct parameter; try reflexivity; congruence. }
  destruct (IntrospectionClaims.qualify_unfit c parameter st) as (Hgl & Hthis).
  { right. left. exact Ha. }
  split; [exact Hthis|]. split; [exact Hgl|].
  cbv [qualify bind dl emit emit_ the_program read_this ret throw gl_get].
  cbn [gl trace this]. rewrite Hp. cbn [gl trace this fst snd].
  split; intros Hcount.
  - replace (Z.to_nat _) with 0%nat by lia. reflexivity.
  - destruct (Z.to_nat _) as [|n] eqn:En; [lia|].
    cbn [for_].
    cbv [bind qualify_step the_program read_this ret throw gl_get emit_].
    cbn [gl trace this]. rewrite Hp. cbn [gl trace this fst snd].
    rewrite Ha. reflexivity.
Qed.

(** X7. [ready()] on any object that has its two parameter maps, a fresh
    one or one that was readied before: the name and the path are never
    changed, no name is ever removed from a parameter map, and a run that
    is rejected leaves the parameter maps exactly as they were. *)
Theorem ready_keeps_names (inst : Instance c) (net : Net.Network) (g : WebGL.GL c)
  mU mA :
  get ACTIVE_UNIFORMS (_parameters inst) = Some mU ->
  get ACTIVE_ATTRIBUTES (_parameters inst) = Some mA ->
  let r := ready net {| gl := g; trace := []; this := inst |} in
  _name (this (snd r)) = _name inst
  /\ _path (this (snd r)) = _path inst
  /\ (exists mU' mA',
         get ACTIVE_UNIFORMS (_parameters (this (snd r))) = Some mU'
         /\ get ACTIVE_ATTRIBUTES (_parameters (this (snd r))) = Some mA'
         /\ (forall n, get n mU <> None -> get n mU' <> None)
         /\ (forall n, get n mA <> None -> get n mA' <> None))
  /\ (forall e, fst r = Rejected e ->
                _parameters (this (snd r)) = _parameters inst).
Proof.
  intros HU HA r. subst r.
  run_ready HU HA; simpl_state.
  all: try (destruct Hsame as (Hnm & _ & _ & Hpt); rewrite Hnm, Hpt, Hpar;
            simpl_state).
  all: split; [reflexivity|]; split; [reflexivity|].
  all: split; [|intros e He; try discriminate He; reflexivity].
  all: try (exists mU, mA; repeat split; [exact HU|exact HA|auto|auto]).
  all: do 2 eexists.
  all: split; [rewrite get_set_other by discriminate; apply get_set_same|].
  all: split; [apply get_set_same|].
  all: split; intros n; apply get_set_all_some.
Qed.

End Extras.

End IntrospectionExtras.

(** ** Numbers *)

Module JsNumberFacts.

Import JsNumber.

Lemma iter_pos_iter {A : Type} (f : A -> A) (p : positive) (x : A) :
  iter_pos f p x = Pos.iter f x p.
Proof.
  revert x. induction p as [p IH|p IH|]; intros x; cbn [iter_pos Pos.iter].
  - rewrite !IH, !Pos.iter_swap. reflexivity.
  - rewrite !IH. reflexivity.
  - reflexivity.
Qed.

Lemma digits2_shift (m d : positive) :
  digits2_pos (Pos.iter xO m d) = (digits2_pos m + d)%positive.
Proof.
  induction d as [|d IH] using Pos.peano_ind.
  - cbn. now rewrite Pos.add_1_r.
  - rewrite Pos.iter_succ. cbn [digits2_pos]. rewrite IH.
    now rewrite Pos.add_succ_r.
Qed.

(** Shifting right what was shifted left loses nothing. *)
Lemma shr_shift (m d : positive) :
  iter_pos shr_1 d
    {| shr_m := Zpos (Pos.iter xO m d); shr_r := false; shr_s := false |}
  = {| shr_m := Zpos m; shr_r := false; shr_s := false |}.
Proof.
  rewrite iter_pos_iter.
  induction d as [|d IH] using Pos.peano_ind.
  - reflexivity.
  - rewrite Pos.iter_succ_r, Pos.iter_succ. cbn [shr_1 orb]. exact IH.
Qed.

Lemma binary_round_aux_canonical (prec emax : Z) (s : bool) (m : positive) (e : Z) :
  canonical_mantissa prec emax m e = true ->
  (e <= emax - prec)%Z ->
  binary_round_aux prec emax s (Zpos m) e loc_Exact = S754_finite s m e.
Proof.
  intros Hc He. unfold canonical_mantissa in Hc. apply Z.eqb_eq in Hc.
  unfold binary_round_aux, shr_fexp. cbn [Zdigits2 shr_record_of_loc].
  rewrite Hc, Z.sub_diag. cbn [shr shr_m loc_of_shr_record round_nearest_even].
  cbn [Zdigits2]. rewrite Hc, Z.sub_diag. cbn [shr shr_m].
  apply Z.leb_le in He. now rewrite He.
Qed.

(** A value of the format, with its mantissa shifted left by [d] digits,
    is rounded back to itself. *)
Lemma binary_round_shifted (prec emax : Z) (s : bool) (m d : positive) (e : Z) :
  canonical_mantissa prec emax m e = true ->
  (e <= emax - prec)%Z ->
  binary_round prec emax s (Pos.iter xO m d) (e - Zpos d) = S754_finite s m e.
Proof.
  intros Hc He. pose proof Hc as Hc'.
  unfold canonical_mantissa in Hc'. apply Z.eqb_eq in Hc'.
  assert (Hd : (Zpos (digits2_pos (Pos.iter xO m d)) + (e - Zpos d)
                = Zpos (digits2_pos m) + e)%Z).
  { rewrite digits2_shift. lia. }
  unfold binary_round. rewrite Hd, Hc'.
  unfold shl_align. replace (e - (e - Zpos d))%Z with (Zpos d) by lia.
  unfold binary_round_aux, shr_fexp. cbn [Zdigits2 shr_record_of_loc].
  rewrite Hd, Hc'. replace (e - (e - Zpos d))%Z with (Zpos d) by lia.
  cbn [shr]. rewrite shr_shift.
  cbn [shr_m loc_of_shr_record round_nearest_even Zdigits2].
  replace (e - Zpos d + Zpos d)%Z with e by lia.
  rewrite Hc', Z.sub_diag. cbn [shr shr_m].
  apply Z.leb_le in He. now rewrite He.
Qed.

(** The Number an element of a [Float32Array] is read as. *)
Lemma widen_finite (s : bool) (m : positive) (e : Z) :
  bounded 24 128 m e = true ->
  exists d, widen (S754_finite s m e) = S754_finite s (Pos.iter xO m d) (e - Zpos d).
Proof.
  intros Hb. unfold bounded in Hb. apply andb_prop in Hb. destruct Hb as (Hc & He).
  unfold canonical_mantissa, fexp, emin in Hc. apply Z.eqb_eq in Hc.
  apply Z.leb_le in He.
  unfold widen, convert, binary_round.
  set (D := Zpos (digits2_pos m)) in *.
  assert (HD : (0 < D)%Z) by (subst D; lia).
  set (e' := fexp 53 1024 (D + e)).
  assert (He' : (e' < e)%Z) by (subst e'; unfold fexp, emin; lia).
  exists (Z.to_pos (e - e')).
  assert (Hpos : (Zpos (Z.to_pos (e - e')) = e - e')%Z) by (apply Z2Pos.id; lia).
  unfold shl_align.
  destruct (e' - e)%Z as [|p|p] eqn:Ediff; try lia.
  assert (Hp : p = Z.to_pos (e - e')).
  { apply Pos2Z.inj. rewrite Hpos. lia. }
  subst p. replace (e - Zpos (Z.to_pos (e - e')))%Z with e' by lia.
  apply binary_round_aux_canonical.
  - unfold canonical_mantissa. apply Z.eqb_eq.
    rewrite digits2_shift, Pos2Z.inj_add, Hpos.
    replace (Zpos (digits2_pos m) + (e - e') + e')%Z with (D + e)%Z by (subst D; lia).
    reflexivity.
  - subst e'. unfold fexp, emin. lia.
Qed.

(** Round trip: an element read as a Number and stored again is the same
    element. *)
Theorem fround_widen (x : spec_float) : float32 x -> fround (widen x) = x.
Proof.
  unfold float32. destruct x as [s|s| |s m e]; try reflexivity.
  cbn [valid_binary]. intros Hb. destruct (widen_finite s m e Hb) as (d & ->).
  unfold bounded in Hb. apply andb_prop in Hb. destruct Hb as (Hc & He).
  apply Z.leb_le in He. unfold fround, convert.
  now apply binary_round_shifted.
Qed.

Lemma to_boolean_widen (x : spec_float) : float32 x -> to_boolean (widen x) = to_boolean x.
Proof.
  unfold float32. destruct x as [s|s| |s m e]; try reflexivity.
  cbn [valid_binary]. intros Hb. destruct (widen_finite s m e Hb) as (d & ->).
  reflexivity.
Qed.

(** Changing the sign commutes with rounding. *)
Lemma convert_opp (prec emax : Z) (x : spec_float) :
  convert prec emax (SFopp x) = SFopp (convert prec emax x).
Proof.
  destruct x as [s|s| |s m e]; try reflexivity.
  cbn [SFopp convert]. unfold binary_round.
  destruct (shl_align m e _) as [mz ez]. unfold binary_round_aux.
  destruct (shr_fexp prec emax (Zpos mz) ez loc_Exact) as [mrs e1].
  destruct (shr_fexp prec emax _ e1 loc_Exact) as [mrs' e2].
  destruct (shr_m mrs') as [|p|p]; try reflexivity.
  destruct (e2 <=? emax - prec)%Z; reflexivity.
Qed.

Lemma opp_float32 (x : spec_float) : float32 x -> float32 (SFopp x).
Proof. unfold float32. destruct x; auto. Qed.

Lemma opp_opp (x : spec_float) : SFopp (SFopp x) = x.
Proof. destruct x as [s|s| |s m e]; cbn; now rewrite ?negb_involutive. Qed.

Lemma shr_1_nonneg (mrs : shr_record) :
  (0 <= shr_m mrs)%Z -> (0 <= shr_m (shr_1 mrs))%Z.
Proof.
  destruct mrs as [m r s]. cbn [shr_m]. intros H.
  destruct m as [|p|p]; [cbn; lia| |lia].
  destruct p; cbn; lia.
Qed.

Lemma iter_pos_invariant {A : Type} (P : A -> Prop) (f : A -> A) :
  (forall x, P x -> P (f x)) -> forall p x, P x -> P (iter_pos f p x).
Proof.
  intros Hf p. induction p as [p IH|p IH|]; intros x Hx; cbn [iter_pos]; auto.
Qed.

Lemma shr_fexp_nonneg (prec emax m e : Z) (l : location) :
  (0 <= m)%Z -> (0 <= shr_m (fst (shr_fexp prec emax m e l)))%Z.
Proof.
  intros Hm. unfold shr_fexp, shr.
  assert (H0 : (0 <= shr_m (shr_record_of_loc m l))%Z)
    by (destruct l as [|[]]; exact Hm).
  destruct (_ - e)%Z as [|p|p]; cbn [fst]; try exact H0.
  apply (iter_pos_invariant (fun r => (0 <= shr_m r)%Z)); [|exact H0].
  exact shr_1_nonneg.
Qed.

Lemma round_nearest_even_nonneg (m : Z) (l : location) :
  (0 <= m)%Z -> (0 <= round_nearest_even m l)%Z.
Proof.
  intros Hm. destruct l as [|[]]; cbn; try exact Hm; [|lia].
  destruct (Z.even m); lia.
Qed.

Lemma binary_round_aux_not_nan (prec emax : Z) (s : bool) (m e : Z) (l : location) :
  (0 <= m)%Z -> binary_round_aux prec emax s m e l <> S754_nan.
Proof.
  intros Hm. unfold binary_round_aux.
  pose proof (shr_fexp_nonneg prec emax m e l Hm) as H1.
  destruct (shr_fexp prec emax m e l) as [mrs e1]. cbn [fst] in H1.
  pose proof (shr_fexp_nonneg prec emax _ e1 loc_Exact
                (round_nearest_even_nonneg _ (loc_of_shr_record mrs) H1)) as H2.
  destruct (shr_fexp prec emax _ e1 loc_Exact) as [mrs' e2]. cbn [fst] in H2.
  destruct (shr_m mrs') as [|p|p]; [discriminate| |lia].
  destruct (e2 <=? emax - prec)%Z; discriminate.
Qed.

(** Rounding never makes a NaN out of a number. *)
Lemma convert_not_nan (prec emax : Z) (x : spec_float) :
  x <> S754_nan -> convert prec emax x <> S754_nan.
Proof.
  destruct x as [s|s| |s m e]; try (intros; assumption || discriminate).
  intros _. cbn [convert]. unfold binary_round.
  destruct (shl_align m e _) as [mz ez]. apply binary_round_aux_not_nan. lia.
Qed.

Lemma mul_comm (x y : number) : mul x y = mul y x.
Proof.
  unfold mul. destruct x as [s|s| |s m e], y as [s'|s'| |s' m' e'];
    cbn [SFmul]; rewrite ?(xorb_comm s s'); try reflexivity.
  now rewrite Pos.mul_comm, Z.add_comm.
Qed.

Lemma mul_nan_r (x : number) : mul x nan = nan.
Proof. destruct x; reflexivity. Qed.

End JsNumberFacts.

(** ** The constructor and the arithmetic methods of the vector utility *)

Module Vec3Extras.

Import JsNumber JsNumberFacts Vec3Methods.

Lemma nth_error_update_same (r : ref) (f : vec -> vec) (h : Heap) :
  nth_error (update r f h) r = option_map f (nth_error h r).
Proof.
  revert r. induction h as [|v h IH]; intros [|r]; cbn; auto.
Qed.

Lemma nth_error_update_other (r r' : ref) (f : vec -> vec) (h : Heap) :
  r' <> r -> nth_error (update r f h) r' = nth_error h r'.
Proof.
  revert r r'. induction h as [|v h IH]; intros [|r] [|r'] Hne; cbn; auto;
    congruence.
Qed.

Lemma update_update (r : ref) (f g : vec -> vec) (h : Heap) :
  update r f (update r g h) = update r (fun v => f (g v)) h.
Proof.
  revert r. induction h as [|v h IH]; intros [|r]; cbn; auto. now rewrite IH.
Qed.

Lemma update_same (r : ref) (f : vec -> vec) (h : Heap) (v : vec) :
  nth_error h r = Some v -> f v = v -> update r f h = h.
Proof.
  revert r. induction h as [|w h IH]; intros [|r]; cbn; try discriminate.
  - intros E Hf. inversion E; subst. now rewrite Hf.
  - intros E Hf. now rewrite (IH r E Hf).
Qed.

(** Runs a method on a heap in which the references are known. *)
Ltac run_method :=
  cbv [negate inverse scale multiply cross and_then read write pure];
  repeat first
    [ rewrite nth_error_update_same
    | rewrite nth_error_update_other by congruence
    | match goal with
      | H : nth_error ?h ?r = Some _ |- context [nth_error ?h ?r] => rewrite H
      end
    | progress cbn [option_map set0 set1 set2 Vec3._v0 Vec3._v1 Vec3._v2] ];
  rewrite ?update_update.

(** X8. A new vector never holds a NaN: an argument that is absent, NaN
    or a zero of either sign is replaced by +0, and any other Number is
    rounded to a binary32 value; an argument that is itself a binary32
    value other than zero and NaN is stored unchanged. *)
Theorem constructor_elements (x y z : option number) (i : nat) (a : option number) :
  nth_error [x; y; z] i = Some a ->
  exists n,
    nth_error (components (constructor x y z)) i = Some n
    /\ n <> S754_nan
    /\ ((a = None \/ a = Some S754_nan \/ exists s, a = Some (S754_zero s)) ->
        n = S754_zero false)
    /\ (forall f, float32 f -> to_boolean f = true -> a = Some (widen f) -> n = f).
Proof.
  intros Hi.
  assert (Hn : fround (or_zero a) <> S754_nan).
  { apply convert_not_nan. unfold or_zero.
    destruct a as [[s|s| |s m e]|]; cbn; discriminate. }
  assert (H0 : (a = None \/ a = Some S754_nan \/ exists s, a = Some (S754_zero s)) ->
               fround (or_zero a) = S754_zero false).
  { intros [->|[->|(s & ->)]]; reflexivity. }
  assert (Hf : forall f, float32 f -> to_boolean f = true -> a = Some (widen f) ->
                         fround (or_zero a) = f).
  { intros f Hv Ht ->. unfold or_zero. rewrite (to_boolean_widen f Hv), Ht.
    now apply fround_widen. }
  destruct i as [|[|[|i]]]; cbn in Hi; inversion Hi; subst; clear Hi;
    try (destruct i; discriminate);
    (eexists; split; [reflexivity|]; auto).
Qed.

(** X9. On a vector of binary32 values, [negate] ends normally and
    returns its receiver, and negating twice restores every element, the
    sign of a zero included, and leaves the rest of the heap alone. *)
Theorem negate_twice (h : Heap) (this : ref) (v : vec) :
  nth_error h this = Some v ->
  float32_vec v ->
  fst (negate this h) = Ok this
  /\ and_then (negate this) negate h = (Ok this, h).
Proof.
  intros Hv (H0 & H1 & H2).
  assert (Hneg : forall x, float32 x -> fround (neg (widen x)) = SFopp x).
  { intros x Hx. unfold neg, fround. rewrite convert_opp.
    fold (fround (widen x)). now rewrite fround_widen. }
  split.
  - run_method. reflexivity.
  - unfold and_then at 1.
    assert (E : negate this h
                = (Ok this,
                   update this
                     (fun _ => Vec3.Build_t (SFopp (Vec3._v0 v)) (SFopp (Vec3._v1 v))
                                 (SFopp (Vec3._v2 v))) h)).
    { run_method. now rewrite !Hneg by assumption. }
    rewrite E. run_method.
    rewrite !Hneg by (cbn; now apply opp_float32).
    cbn [Vec3._v0 Vec3._v1 Vec3._v2]. rewrite !opp_opp. f_equal.
    apply (update_same _ _ _ v Hv). now destruct v.
Qed.

(** X10. For two different vectors, [a.multiply(b)] leaves in [a] exactly
    the vector [b.multiply(a)] leaves in [b]; each call returns its
    receiver and changes nothing else, its argument included. *)
Theorem multiply_commutes (h : Heap) (a b : ref) (va vb : vec) :
  a <> b ->
  nth_error h a = Some va ->
  nth_error h b = Some vb ->
  exists v,
    multiply a (Some b) h = (Ok a, update a (fun _ => v) h)
    /\ multiply b (Some a) h = (Ok b, update b (fun _ => v) h).
Proof.
  intros Hne Ha Hb.
  exists (Vec3.Build_t
            (fround (mul (widen (Vec3._v0 va)) (widen (Vec3._v0 vb))))
            (fround (mul (widen (Vec3._v1 va)) (widen (Vec3._v1 vb))))
            (fround (mul (widen (Vec3._v2 va)) (widen (Vec3._v2 vb))))).
  split.
  - run_method. reflexivity.
  - run_method.
    now rewrite (mul_comm (widen (Vec3._v0 vb))), (mul_comm (widen (Vec3._v1 vb))),
      (mul_comm (widen (Vec3._v2 vb))).
Qed.

(** X11. [a.cross(b)] reads all of [a] before it writes, so for a
    different vector [b] it leaves in [a] the cross product of the old [a]
    and [b], and [b] untouched; but [a.cross(a)] reads its argument after
    its own writes: the second element is computed from the new first
    one, the third from the new first and second. *)
Theorem cross_reads_its_own_writes (h : Heap) (a b : ref) (va vb : vec) :
  nth_error h a = Some va ->
  nth_error h b = Some vb ->
  (a <> b ->
   cross a (Some b) h = (Ok a, update a (fun _ => cross_product va vb) h))
  /\ cross a (Some a) h
     = (Ok a,
        update a
          (fun _ =>
             let c0 := Vec3._v0 (cross_product va va) in
             let c1 := Vec3._v1 (cross_product va (set0 c0 va)) in
             let c2 := Vec3._v2 (cross_product va (set1 c1 (set0 c0 va))) in
             Vec3.Build_t c0 c1 c2) h).
Proof.
  intros Ha Hb. split.
  - intros Hne. run_method. reflexivity.
  - run_method. reflexivity.
Qed.

(** X12. Scaling by a Number that is a binary32 value other than zero and
    NaN is multiplying by the new vector that holds this Number three
    times: both leave the same vector in the receiver. *)
Theorem scale_is_multiply (h : Heap) (a : ref) (va : vec) (f : spec_float) :
  nth_error h a = Some va ->
  float32 f ->
  to_boolean f = true ->
  let n := Some (widen f) in
  exists v b h',
    new n n n h = (Ok b, h')
    /\ scale a n h = (Ok a, update a (fun _ => v) h)
    /\ multiply a (Some b) h' = (Ok a, update a (fun _ => v) h').
Proof.
  intros Ha Hf Ht n. subst n.
  assert (Hc : constructor (Some (widen f)) (Some (widen f)) (Some (widen f))
               = Vec3.Build_t f f f).
  { unfold constructor, or_zero. rewrite (to_boolean_widen f Hf), Ht.
    now rewrite (fround_widen f Hf). }
  assert (Hlt : (a < List.length h)%nat).
  { apply nth_error_Some. congruence. }
  exists (Vec3.Build_t
            (fround (mul (widen (Vec3._v0 va)) (widen f)))
            (fround (mul (widen (Vec3._v1 va)) (widen f)))
            (fround (mul (widen (Vec3._v2 va)) (widen f)))).
  exists (List.length h), (h ++ [Vec3.Build_t f f f])%list.
  assert (Hb : nth_error (h ++ [Vec3.Build_t f f f]) (List.length h)
               = Some (Vec3.Build_t f f f)).
  { rewrite nth_error_app2 by lia. now rewrite Nat.sub_diag. }
  assert (Ha' : nth_error (h ++ [Vec3.Build_t f f f]) a = Some va).
  { rewrite nth_error_app1 by exact Hlt. exact Ha. }
  split; [|split].
  - unfold new. now rewrite Hc.
  - run_method. reflexivity.
  - assert (Hne : List.length h <> a) by lia.
    run_method. reflexivity.
Qed.

(** X13. With its argument absent, [multiply] and [cross] throw a
    TypeError before they write anything, and [scale] ends normally with
    all three elements NaN. *)
Theorem methods_without_argument (h : Heap) (this : ref) (v : vec) :
  nth_error h this = Some v ->
  multiply this None h
  = (Throw (TypeError "Cannot read properties of undefined (reading '_v')"), h)
  /\ cross this None h
     = (Throw (TypeError "Cannot read properties of undefined (reading '_v')"), h)
  /\ scale this None h
     = (Ok this, update this (fun _ => Vec3.Build_t S754_nan S754_nan S754_nan) h).
Proof.
  intros Hv. split; [|split].
  - run_method. reflexivity.
  - run_method. reflexivity.
  - run_method. cbn [number_of]. now rewrite !mul_nan_r.
Qed.

(** X14. [inverse] never throws: it returns its receiver, changes nothing
    else, and divides by zero in the IEEE way: an element that is a zero
    becomes the infinity of the same sign, an infinity becomes the zero of
    the same sign, and a NaN stays a NaN. *)
Theorem inverse_of_special_values (h : Heap) (this : ref) (v : vec) :
  nth_error h this = Some v ->
  exists v',
    inverse this h = (Ok this, update this (fun _ => v') h)
    /\ forall i x,
        nth_error (components v) i = Some x ->
        exists x',
          nth_error (components v') i = Some x'
          /\ (forall s, x = S754_zero s -> x' = S754_infinity s)
          /\ (forall s, x = S754_infinity s -> x' = S754_zero s)
          /\ (x = S754_nan -> x' = S754_nan).
Proof.
  intros Hv.
  exists (Vec3.Build_t
            (fround (div one (widen (Vec3._v0 v))))
            (fround (div one (widen (Vec3._v1 v))))
            (fround (div one (widen (Vec3._v2 v))))).
  split.
  - run_method. reflexivity.
  - intros i x Hi.
    assert (Hx : (forall s, x = S754_zero s ->
                            fround (div one (widen x)) = S754_infinity s)
                 /\ (forall s, x = S754_infinity s ->
                               fround (div one (widen x)) = S754_zero s)
                 /\ (x = S754_nan -> fround (div one (widen x)) = S754_nan)).
    { repeat split; [intros [] ->|intros [] ->|intros ->]; reflexivity. }
    destruct i as [|[|[|i]]]; cbn in Hi; inversion Hi; subst; clear Hi;
      try (destruct i; discriminate);
      (eexists; split; [reflexivity|exact Hx]).
Qed.

End Vec3Extras.

(** ** The further properties on the small driver *)

Module ExtraRuns.

Import Program Toy.

Local Abbreviation ctx := (Toy.context true true).

Local Abbreviation readied := (snd (ready good_net (Toy.start true true))).

Local Abbreviation handle3 := (3%Z : WebGL.WebGLProgram (Toy.context true true)).

(** X1 on the run with two good sources: the program is the handle 3, the
    shaders are the handles 1 and 2. *)
Lemma shaders_attached_in_array_order_witness :
  exists sv sf,
    filter attaches (trace readied) = [EvAttachShader handle3 sv; EvAttachShader handle3 sf]
    /\ JsMap.get VERTEX_SHADER (_shaders (this readied)) = Some sv
    /\ JsMap.get FRAGMENT_SHADER (_shaders (this readied)) = Some sf
    /\ _program (this readied) = Some handle3.
Proof.
  refine (ProgramExtras.shaders_attached_in_array_order ctx (Toy.basic ctx)
            good_net Toy.driver0 [] [] handle3 _ _ _).
  - reflexivity.
  - reflexivity.
  - vm_compute. tauto.
Defined.

(** X2 on the run in which neither source compiles. *)
Lemma both_requests_first_witness :
  exists rest,
    trace (snd (ready both_bad_net (Toy.start true true)))
    = (EvLog "Loading : /shaders/basic/basic.vert"
       :: EvFetch "/shaders/basic/basic.vert"
       :: EvLog "Loading : /shaders/basic/basic.frag"
       :: EvFetch "/shaders/basic/basic.frag"
       :: rest)
    /\ forallb (fun ev => negb (requests ev)) rest = true.
Proof.
  refine (ProgramExtras.both_requests_first ctx (Toy.basic ctx) both_bad_net
            Toy.driver0 [] [] _ _).
  - reflexivity.
  - reflexivity.
Defined.

(** X3 for the fragment stage on the run in which the vertex source is
    answered with status 404. *)
Lemma shaders_hold_the_compiled_stages_witness :
  exists sh,
    JsMap.get FRAGMENT_SHADER
      (_shaders (this (snd (ready not_found_net (Toy.start true true))))) = Some sh.
Proof.
  refine (proj2 (ProgramExtras.shaders_hold_the_compiled_stages ctx Toy.basic_args
                   (Build_State (c := ctx) (T := unit) Toy.driver0 [] tt)
                   (Toy.basic ctx) not_found_net Toy.driver0 FRAGMENT_SHADER _)
            (GLboolean true) _ _).
  - reflexivity.
  - vm_compute. reflexivity.
  - reflexivity.
Defined.

(** X4 on the readied object: qualifying the uniforms leaves the
    attributes alone. *)
Lemma qualify_touches_one_map_witness :
  JsMap.get ACTIVE_ATTRIBUTES
    (_parameters (this (snd (qualify ACTIVE_UNIFORMS readied))))
  = JsMap.get ACTIVE_ATTRIBUTES (_parameters (this readied)).
Proof.
  refine (proj2 (proj2 (IntrospectionExtras.qualify_touches_one_map ctx
                          ACTIVE_UNIFORMS ACTIVE_ATTRIBUTES readied _))).
  discriminate.
Defined.

(** X5 on the readied object. *)
Lemma qualify_keeps_stale_names_witness :
  exists m',
    JsMap.get ACTIVE_UNIFORMS
      (_parameters (this (snd (qualify ACTIVE_UNIFORMS readied)))) = Some m'
    /\ (forall n v, In (n, v) (active_uniforms (gl readied) handle3) ->
                    JsMap.get n m' = Some v)
    /\ (forall n, (forall v, ~ In (n, v) (active_uniforms (gl readied) handle3)) ->
                  JsMap.get n m' = JsMap.get n [("model", 0%Z); ("view_projection", 1%Z)]).
Proof.
  refine (proj1 (IntrospectionExtras.qualify_keeps_stale_names ctx readied handle3
                   [("model", 0%Z); ("view_projection", 1%Z)] _) _).
  - vm_compute. reflexivity.
  - vm_compute. reflexivity.
Defined.

(** X6 on the readied object with the constant of the link status, for
    which the small driver answers [true], that is the count 1. *)
Lemma qualify_unknown_class_witness :
  fst (qualify LINK_STATUS readied)
  = Throw (TypeError "c[a_func] is not a function").
Proof.
  refine (proj2 (proj2 (proj2 (IntrospectionExtras.qualify_unknown_class ctx
                                 LINK_STATUS readied handle3 _ _ _))) _).
  - discriminate.
  - discriminate.
  - vm_compute. reflexivity.
  - vm_compute. reflexivity.
Defined.

(** X7 on the run in which the fetch of the vertex source fails. *)
Lemma ready_keeps_names_witness :
  _name (this (snd (ready failed_net (Toy.start true true)))) = "basic".
Proof.
  refine (proj1 (IntrospectionExtras.ready_keeps_names ctx (Toy.basic ctx)
                   failed_net Toy.driver0 [] [] _ _)).
  - reflexivity.
  - reflexivity.
Defined.

End ExtraRuns.

(** ** The vector methods on the vectors (1, 2, 3) and (4, 5, 6) *)

Module Vec3Runs.

Import JsNumber Vec3Methods Vec3Samples.

(** X8 for [new Vec3(1, undefined, NaN)], second argument. *)
Lemma constructor_elements_witness :
  exists n,
    nth_error (components (constructor (Some (of_Z 1)) None (Some nan))) 1 = Some n
    /\ n <> S754_nan.
Proof.
  destruct (Vec3Extras.constructor_elements (Some (of_Z 1)) None (Some nan) 1 None)
    as (n & H1 & H2 & _).
  - reflexivity.
  - exists n. split; assumption.
Defined.

(** X9 on (1, 2, 3). *)
Lemma negate_twice_witness :
  and_then (negate 0) negate [v123] = (Ok 0%nat, [v123]).
Proof.
  refine (proj2 (Vec3Extras.negate_twice [v123] 0 v123 _ _)).
  - reflexivity.
  - vm_compute. repeat split.
Defined.

(** X10 on (1, 2, 3) and (4, 5, 6). *)
Lemma multiply_commutes_witness :
  exists v,
    multiply 0 (Some 1%nat) [v123; v456] = (Ok 0%nat, [v; v456])
    /\ multiply 1 (Some 0%nat) [v123; v456] = (Ok 1%nat, [v123; v]).
Proof.
  refine (Vec3Extras.multiply_commutes [v123; v456] 0 1 v123 v456 _ _ _).
  - discriminate.
  - reflexivity.
  - reflexivity.
Defined.

(** X11 on (1, 2, 3): the cross product with itself is not the zero
    vector. *)
Lemma cross_reads_its_own_writes_witness :
  cross 0 (Some 0%nat) [v123]
  = (Ok 0%nat, [constructor None (Some (of_Z (-3))) (Some (of_Z (-3)))]).
Proof.
  refine (eq_trans
            (proj2 (Vec3Extras.cross_reads_its_own_writes [v123] 0 0 v123 v123 _ _))
            _).
  - reflexivity.
  - reflexivity.
  - vm_compute. reflexivity.
Defined.

(** X12 on (1, 2, 3) and the scalar 2. *)
Lemma scale_is_multiply_witness :
  exists v b h',
    new (Some (of_Z 2)) (Some (of_Z 2)) (Some (of_Z 2)) [v123] = (Ok b, h')
    /\ scale 0 (Some (of_Z 2)) [v123] = (Ok 0%nat, update 0 (fun _ => v) [v123])
    /\ multiply 0 (Some b) h' = (Ok 0%nat, update 0 (fun _ => v) h').
Proof.
  refine (Vec3Extras.scale_is_multiply [v123] 0 v123 (fround (of_Z 2)) _ _ _).
  - reflexivity.
  - vm_compute. reflexivity.
  - reflexivity.
Defined.

(** X13 on (1, 2, 3). *)
Lemma methods_without_argument_witness :
  scale 0 None [v123] = (Ok 0%nat, [Vec3.Build_t S754_nan S754_nan S754_nan]).
Proof.
  refine (proj2 (proj2 (Vec3Extras.methods_without_argument [v123] 0 v123 _))).
  reflexivity.
Defined.

(** X14 on the vector [new Vec3()], all of whose elements are +0. *)
Lemma inverse_of_special_values_witness :
  exists v',
    inverse 0 [constructor None None None]
    = (Ok 0%nat, update 0 (fun _ => v') [constructor None None None])
    /\ forall i x,
        nth_error (components (constructor None None None)) i = Some x ->
        exists x',
          nth_error (components v') i = Some x'
          /\ (forall s, x = S754_zero s -> x' = S754_infinity s)
          /\ (forall s, x = S754_infinity s -> x' = S754_zero s)
          /\ (x = S754_nan -> x' = S754_nan).
Proof.
  refine (Vec3Extras.inverse_of_special_values [constructor None None None] 0
            (constructor None None None) _).
  reflexivity.
Defined.

End Vec3Runs.
